(** * VR session data server: record transcoding and session store

    A shallow embedding of [main.py]: the upload endpoint's column
    extraction, the download endpoint's nested reconstruction, and the
    store operations (list sessions, get session, stats, health check,
    clear) over an explicit world holding the two databases, the fault
    plan of the backend and the connection counters. *)

From Stdlib Require Import String Ascii List ZArith Bool Lia.
From Stdlib Require Import Permutation Sorted DecimalString.
Import ListNotations.

Local Open Scope string_scope.
Local Open Scope Z_scope.

(* ===================================================================== *)
(** * Python values *)
(* ===================================================================== *)

(** What [json.loads] produces.  A float is identified by its [repr]
    text, which Python guarantees to determine the double; a dict is the
    list of its items, looked up by key. *)
#[warnings="-register-all"]
Inductive json : Type :=
| JNull
| JBool (b : bool)
| JInt (n : Z)
| JFloat (repr : string)
| JStr (s : string)
| JArr (items : list json)
| JObj (fields : list (string * json)).

(** The scalars that travel through a cursor: bound as parameters of a
    statement and fetched back from a row.  [PDatetime] is the
    [datetime] object psycopg2 returns for a TIMESTAMP column, carried
    by its [str()] text. *)
Inductive cell : Type :=
| PNone
| PBool (b : bool)
| PInt (n : Z)
| PFloat (repr : string)
| PStr (s : string)
| PDatetime (text : string).

Definition cell_eq_dec : forall a b : cell, {a = b} + {a <> b}.
Proof.
  decide equality; auto using Bool.bool_dec, Z.eq_dec, string_dec.
Defined.

Definition cell_eqb (a b : cell) : bool :=
  if cell_eq_dec a b then true else false.

(** Exceptions, by class and message. *)
Inductive exn_class : Type :=
| AttributeError
| OperationalError
| IntegrityError
| ProgrammingError
| DataError
| DatabaseError
| UnicodeDecodeError
| JSONDecodeError
| Exception
| HTTPException (status_code : Z).

Record exn : Type := mkExn { exn_cls : exn_class; exn_msg : string }.

Inductive result (A : Type) : Type :=
| Ok (a : A)
| Raise (e : exn).
Arguments Ok {A} a.
Arguments Raise {A} e.

Definition rbind {A B} (m : result A) (f : A -> result B) : result B :=
  match m with
  | Ok a => f a
  | Raise e => Raise e
  end.

Declare Scope result_scope.
Delimit Scope result_scope with result.
Notation "x <- m ;; k" := (rbind m (fun x => k))
  (at level 100, m at next level, right associativity) : result_scope.

(** Tuple and list displays evaluate their elements left to right; the
    first exception wins. *)
Fixpoint sequence {A} (ms : list (result A)) : result (list A) :=
  match ms with
  | [] => Ok []
  | m :: rest =>
      (x <- m ;; xs <- sequence rest ;; Ok (x :: xs))%result
  end.

(* ===================================================================== *)
(** * Dict access *)
(* ===================================================================== *)

Fixpoint dict_get {V} (k : string) (d : list (string * V)) : option V :=
  match d with
  | [] => None
  | (k', v) :: rest => if String.eqb k k' then Some v else dict_get k rest
  end.

Definition type_name (v : json) : string :=
  match v with
  | JNull => "NoneType"
  | JBool _ => "bool"
  | JInt _ => "int"
  | JFloat _ => "float"
  | JStr _ => "str"
  | JArr _ => "list"
  | JObj _ => "dict"
  end.

Definition no_attribute_get (v : json) : exn :=
  mkExn AttributeError
        ("'" ++ type_name v ++ "' object has no attribute 'get'").

(** [o.get(k, default)]: only a dict has the method. *)
Definition py_get (o : json) (k : string) (default : json) : result json :=
  match o with
  | JObj d =>
      Ok (match dict_get k d with Some v => v | None => default end)
  | _ => Raise (no_attribute_get o)
  end.

(** [record.get(k)] *)
Definition get1 (record : json) (k : string) : result json :=
  py_get record k JNull.

(** [record.get(k1, {}).get(k2)] *)
Definition get2 (record : json) (k1 k2 : string) : result json :=
  (o <- py_get record k1 (JObj []) ;; py_get o k2 JNull)%result.

(** [record.get(k1, {}).get(k2, {}).get(k3)] *)
Definition get3 (record : json) (k1 k2 k3 : string) : result json :=
  (o <- py_get record k1 (JObj []) ;;
   p <- py_get o k2 (JObj []) ;;
   py_get p k3 JNull)%result.

(* ===================================================================== *)
(** * The record transcoder *)
(* ===================================================================== *)

(** The column list of the INSERT statement. *)
Definition columns : list string :=
  [ "session_id"; "phase"; "area"; "timestamp"; "speaker"; "text";
    "hmd_position_x"; "hmd_position_y"; "hmd_position_z";
    "hmd_gaze_x"; "hmd_gaze_y"; "hmd_gaze_z"; "hmd_gaze_actor";
    "hmd_movement_speed";
    "controller_r_x"; "controller_r_y"; "controller_r_z";
    "controller_l_x"; "controller_l_y"; "controller_l_z";
    "controller_r_actor"; "controller_l_actor";
    "controller_r_speed"; "controller_l_speed";
    "user_emotion"; "emotion_window_flag" ].

(** The parameter tuple of the INSERT statement (the same 26 expressions
    in the SQLite and in the PostgreSQL branch of [upload_session_data]). *)
Definition insert_params (record : json) : result (list json) :=
  sequence
    [ get1 record "session_id";
      get1 record "phase";
      get1 record "area";
      get1 record "timestamp";
      get2 record "conversation_data" "speaker";
      get2 record "conversation_data" "text";
      get3 record "hmd_data" "position" "x";
      get3 record "hmd_data" "position" "y";
      get3 record "hmd_data" "position" "z";
      get3 record "hmd_data" "gaze_vector" "x";
      get3 record "hmd_data" "gaze_vector" "y";
      get3 record "hmd_data" "gaze_vector" "z";
      get2 record "hmd_data" "gaze_actor";
      get2 record "hmd_data" "movement_speed";
      get3 record "controller_data" "r_position" "x";
      get3 record "controller_data" "r_position" "y";
      get3 record "controller_data" "r_position" "z";
      get3 record "controller_data" "l_position" "x";
      get3 record "controller_data" "l_position" "y";
      get3 record "controller_data" "l_position" "z";
      get2 record "controller_data" "r_interacted_actor";
      get2 record "controller_data" "l_interacted_actor";
      get2 record "controller_data" "r_movement_speed";
      get2 record "controller_data" "l_movement_speed";
      get1 record "user_emotion";
      get1 record "emotion_window_flag" ].

(** What the JSON encoder of the response writes for a fetched value. *)
Definition cell_json (c : cell) : json :=
  match c with
  | PNone => JNull
  | PBool b => JBool b
  | PInt n => JInt n
  | PFloat r => JFloat r
  | PStr s => JStr s
  | PDatetime t => JStr t
  end.

(** [record.get(k)] on a fetched row. *)
Definition row_get (record : list (string * cell)) (k : string) : json :=
  match dict_get k record with
  | Some c => cell_json c
  | None => JNull
  end.

(** The dict literal of [download_session_with_nested_structure]. *)
Definition nested_record (record : list (string * cell)) : json :=
  JObj
    [ ("session_id", row_get record "session_id");
      ("phase", row_get record "phase");
      ("area", row_get record "area");
      ("timestamp", row_get record "timestamp");
      ("conversation_data",
        JObj [ ("speaker", row_get record "speaker");
               ("text", row_get record "text") ]);
      ("hmd_data",
        JObj [ ("position",
                 JObj [ ("x", row_get record "hmd_position_x");
                        ("y", row_get record "hmd_position_y");
                        ("z", row_get record "hmd_position_z") ]);
               ("gaze_vector",
                 JObj [ ("x", row_get record "hmd_gaze_x");
                        ("y", row_get record "hmd_gaze_y");
                        ("z", row_get record "hmd_gaze_z") ]);
               ("gaze_actor", row_get record "hmd_gaze_actor");
               ("movement_speed", row_get record "hmd_movement_speed") ]);
      ("controller_data",
        JObj [ ("r_position",
                 JObj [ ("x", row_get record "controller_r_x");
                        ("y", row_get record "controller_r_y");
                        ("z", row_get record "controller_r_z") ]);
               ("l_position",
                 JObj [ ("x", row_get record "controller_l_x");
                        ("y", row_get record "controller_l_y");
                        ("z", row_get record "controller_l_z") ]);
               ("r_interacted_actor", row_get record "controller_r_actor");
               ("l_interacted_actor", row_get record "controller_l_actor");
               ("r_movement_speed", row_get record "controller_r_speed");
               ("l_movement_speed", row_get record "controller_l_speed") ]);
      ("user_emotion", row_get record "user_emotion");
      ("emotion_window_flag", row_get record "emotion_window_flag") ].

(* ===================================================================== *)
(** * The world: deployment, databases, faults, connection counters *)
(* ===================================================================== *)

Inductive backend : Type := SQLite | Postgres.

(** The environment variables [get_db_connection] reads. *)
Inductive deployment : Type :=
| Vercel (postgres_url : option string)
| UseSqlite
| LocalDefault.

(** A row of [session_records], the table [init_db] creates when the
    module is loaded: the store-assigned [id], the 26 data columns in the
    order of [columns], the store-assigned [created_at] (its text,
    [YYYY-MM-DD HH:MM:SS]). *)
Record row : Type := mkRow {
  row_id : Z;
  row_cells : list cell;
  row_created_at : string
}.

Record database : Type := mkDb {
  db_rows : list row;
  db_next_id : Z
}.

(** A failure of the backend itself (connectivity, server side): the
    driver raises [OperationalError] for the first kind and another
    [DatabaseError] for the second. *)
Inductive fault : Type :=
| Operational (msg : string)
| Database (msg : string).

Definition exn_of_fault (f : fault) : exn :=
  match f with
  | Operational msg => mkExn OperationalError msg
  | Database msg => mkExn DatabaseError msg
  end.

(** [faults] is the fault plan of the backend: every call that reaches
    it (connect, execute, commit) takes the head; [Some f] makes that call
    raise [f].  An exhausted plan means no further fault.  [opened] and
    [closed] count connections; [file_reads] counts reads of an uploaded
    file.  [now] is CURRENT_TIMESTAMP and [day_ago] the same minus one
    day, as the engine renders them. *)
Record world : Type := mkWorld {
  env : deployment;
  pg : database;
  lite : database;
  now : string;
  day_ago : string;
  faults : list (option fault);
  opened : nat;
  closed : nat;
  file_reads : nat
}.

Definition database_of (w : world) (k : backend) : database :=
  match k with SQLite => lite w | Postgres => pg w end.

Definition set_database (w : world) (k : backend) (d : database) : world :=
  match k with
  | SQLite =>
      mkWorld (env w) (pg w) d (now w) (day_ago w) (faults w)
              (opened w) (closed w) (file_reads w)
  | Postgres =>
      mkWorld (env w) d (lite w) (now w) (day_ago w) (faults w)
              (opened w) (closed w) (file_reads w)
  end.

Definition set_faults (w : world) (fs : list (option fault)) : world :=
  mkWorld (env w) (pg w) (lite w) (now w) (day_ago w) fs
          (opened w) (closed w) (file_reads w).

Definition bump_opened (w : world) : world :=
  mkWorld (env w) (pg w) (lite w) (now w) (day_ago w) (faults w)
          (S (opened w)) (closed w) (file_reads w).

Definition bump_closed (w : world) : world :=
  mkWorld (env w) (pg w) (lite w) (now w) (day_ago w) (faults w)
          (opened w) (S (closed w)) (file_reads w).

Definition bump_file_reads (w : world) : world :=
  mkWorld (env w) (pg w) (lite w) (now w) (day_ago w) (faults w)
          (opened w) (closed w) (S (file_reads w)).

(** ** The state-and-exception monad of the endpoints *)

Definition M (A : Type) : Type := world -> world * result A.

Definition ret {A} (a : A) : M A := fun w => (w, Ok a).

Definition raise {A} (e : exn) : M A := fun w => (w, Raise e).

Definition bind {A B} (m : M A) (f : A -> M B) : M B :=
  fun w =>
    match m w with
    | (w', Ok a) => f a w'
    | (w', Raise e) => (w', Raise e)
    end.

(** [try: m except e: h e]; what [m] did to the world before raising
    stays done. *)
Definition try_except {A} (m : M A) (h : exn -> M A) : M A :=
  fun w =>
    match m w with
    | (w', Ok a) => (w', Ok a)
    | (w', Raise e) => h e w'
    end.

Definition lift {A} (r : result A) : M A := fun w => (w, r).

Declare Scope m_scope.
Delimit Scope m_scope with M.
Notation "x <- m ;; k" := (bind m (fun x => k))
  (at level 100, m at next level, right associativity) : m_scope.
Notation "m ;;; k" := (bind m (fun _ => k))
  (at level 100, right associativity) : m_scope.

(** ** Connections and statements *)

Inductive statement : Type :=
| Insert (cells : list cell) (created_at : string)
| DeleteAll.

(** A connection with the statements of its open transaction. *)
Record conn : Type := mkConn {
  kind : backend;
  pending : list statement
}.

Definition backend_call : M unit :=
  fun w =>
    match faults w with
    | [] => (w, Ok tt)
    | None :: fs => (set_faults w fs, Ok tt)
    | Some f :: fs => (set_faults w fs, Raise (exn_of_fault f))
    end.

Definition connect (k : backend) : M conn :=
  (backend_call ;;;
   fun w => (bump_opened w, Ok (mkConn k [])))%M.

(** [conn.close()]; an open transaction is dropped with it. *)
Definition close (c : conn) : M unit :=
  fun w => (bump_closed w, Ok tt).

Definition apply_statement (d : database) (s : statement) : database :=
  match s with
  | Insert cells created =>
      mkDb (db_rows d ++ [mkRow (db_next_id d) cells created])
           (db_next_id d + 1)
  | DeleteAll => mkDb [] (db_next_id d)
  end.

(** The table as the connection sees it: the committed rows with its own
    transaction applied. *)
Definition view (w : world) (c : conn) : database :=
  fold_left apply_statement (pending c) (database_of w (kind c)).

(** [conn.commit()] *)
Definition commit (c : conn) : M conn :=
  (backend_call ;;;
   fun w => (set_database w (kind c) (view w c), Ok (mkConn (kind c) [])))%M.

(** A SELECT: the rows the connection sees, through [q]. *)
Definition execute_query {A} (c : conn) (q : list row -> A) : M A :=
  (backend_call ;;;
   fun w => (w, Ok (q (db_rows (view w c)))))%M.

(** [is_sqlite = hasattr(conn, 'execute') and 'sqlite' in str(type(conn)).lower()] *)
Definition is_sqlite (c : conn) : bool :=
  match kind c with SQLite => true | Postgres => false end.

Definition is_operational_error (e : exn) : bool :=
  match exn_cls e with OperationalError => true | _ => false end.

Definition exn_class_name (c : exn_class) : string :=
  match c with
  | AttributeError => "AttributeError"
  | OperationalError => "OperationalError"
  | IntegrityError => "IntegrityError"
  | ProgrammingError => "ProgrammingError"
  | DataError => "DataError"
  | DatabaseError => "DatabaseError"
  | UnicodeDecodeError => "UnicodeDecodeError"
  | JSONDecodeError => "JSONDecodeError"
  | Exception => "Exception"
  | HTTPException _ => "HTTPException"
  end.

Definition get_db_connection : M conn :=
  fun w =>
    match env w with
    | Vercel None =>
        raise (mkExn Exception "POSTGRES_URL environment variable not set") w
    | Vercel (Some _) =>
        try_except
          (c <- connect Postgres ;;
           _ <- execute_query c (fun _ => 1) ;;
           ret c)%M
          (fun e =>
             raise (mkExn Exception
                          ("Failed to connect to Vercel Postgres: "
                             ++ exn_class_name (exn_cls e) ++ ": "
                             ++ exn_msg e)))
          w
    | UseSqlite => connect SQLite w
    | LocalDefault =>
        try_except
          (connect Postgres)
          (fun e =>
             if is_operational_error e then connect SQLite else raise e)
          w
    end.

(* ===================================================================== *)
(** * The engine side of an INSERT *)
(* ===================================================================== *)

(** Column types of the CREATE TABLE statement, in the order of
    [columns]. *)
Inductive sqltype : Type := TEXT | REAL | BOOLEAN.

Definition column_types : list sqltype :=
  [ TEXT; TEXT; TEXT; TEXT; TEXT; TEXT;
    REAL; REAL; REAL;
    REAL; REAL; REAL; TEXT;
    REAL;
    REAL; REAL; REAL;
    REAL; REAL; REAL;
    TEXT; TEXT;
    REAL; REAL;
    TEXT; BOOLEAN ].

(** Parameter adaptation: a scalar is bound as it is; neither driver
    binds a dict or a list to these columns. *)
Definition adapt (v : json) : result cell :=
  match v with
  | JNull => Ok PNone
  | JBool b => Ok (PBool b)
  | JInt n => Ok (PInt n)
  | JFloat r => Ok (PFloat r)
  | JStr s => Ok (PStr s)
  | JArr _ | JObj _ =>
      Raise (mkExn ProgrammingError
                   ("type '" ++ type_name v ++ "' is not supported"))
  end.

Definition fits (t : sqltype) (c : cell) : bool :=
  match c, t with
  | PNone, _ => true
  | PStr _, TEXT => true
  | PInt _, REAL => true
  | PFloat _, REAL => true
  | PBool _, BOOLEAN => true
  | _, _ => false
  end.

Fixpoint all_fit (ts : list sqltype) (cs : list cell) : bool :=
  match ts, cs with
  | t :: ts', c :: cs' => fits t c && all_fit ts' cs'
  | _, _ => true
  end.

(** The engine is the arbiter of a row: [session_id] is NOT NULL on both
    engines; SQLite takes any scalar in any column, PostgreSQL checks the
    value against the column type.  The conversions an engine applies to
    a value it accepts are not modelled: a row holds the bound values. *)
Definition engine_check (k : backend) (cells : list cell) : result unit :=
  match hd PNone cells with
  | PNone =>
      Raise (mkExn IntegrityError
                   "NOT NULL constraint failed: session_records.session_id")
  | _ =>
      match k with
      | SQLite => Ok tt
      | Postgres =>
          if all_fit column_types cells then Ok tt
          else Raise (mkExn DataError "invalid input value for column type")
      end
  end.

(** The row a record becomes, or the exception its processing raises. *)
Definition prepare (k : backend) (record : json) : result (list cell) :=
  (params <- insert_params record ;;
   cells <- sequence (map adapt params) ;;
   _ <- engine_check k cells ;;
   Ok cells)%result.

(** [cursor.execute('INSERT INTO session_records (...) VALUES (...)', params)] *)
Definition execute_insert (c : conn) (params : list json) : M conn :=
  (cells <- lift (sequence (map adapt params)) ;;
   backend_call ;;;
   lift (engine_check (kind c) cells) ;;;
   fun w => (w, Ok (mkConn (kind c) (pending c ++ [Insert cells (now w)]))))%M.

(** [cursor.execute('DELETE FROM session_records')] *)
Definition execute_delete (c : conn) : M conn :=
  (backend_call ;;;
   ret (mkConn (kind c) (pending c ++ [DeleteAll])))%M.

(* ===================================================================== *)
(** * Queries *)
(* ===================================================================== *)

Definition column (r : row) (name : string) : cell :=
  match dict_get name (combine columns (row_cells r)) with
  | Some c => c
  | None => PNone
  end.

Definition is_null (c : cell) : bool :=
  match c with PNone => true | _ => false end.

Fixpoint dedup (l : list cell) : list cell :=
  match l with
  | [] => []
  | c :: rest => if existsb (cell_eqb c) rest then dedup rest
                 else c :: dedup rest
  end.

(** [SELECT COUNT( * ) FROM session_records] *)
Definition count_rows (rows : list row) : Z := Z.of_nat (length rows).

Definition session_ids (rows : list row) : list cell :=
  filter (fun c => negb (is_null c))
         (map (fun r => column r "session_id") rows).

(** [SELECT COUNT(DISTINCT session_id) FROM session_records] *)
Definition count_distinct_sessions (rows : list row) : Z :=
  Z.of_nat (length (dedup (session_ids rows))).

(** ** Grouping *)

Record session_group : Type := mkGroup {
  g_session_id : cell;
  g_records : Z;
  g_created : string
}.

Definition str_min (a b : string) : string :=
  if String.ltb b a then b else a.

Fixpoint add_to_groups (sid : cell) (created : string)
         (gs : list session_group) : list session_group :=
  match gs with
  | [] => [mkGroup sid 1 created]
  | g :: rest =>
      if cell_eqb sid (g_session_id g)
      then mkGroup sid (g_records g + 1) (str_min (g_created g) created)
             :: rest
      else g :: add_to_groups sid created rest
  end.

(** [session_id, COUNT( * ) as records, MIN(created_at) as created ...
    GROUP BY session_id], groups in order of first appearance. *)
Definition group_sessions (rows : list row) : list session_group :=
  fold_left
    (fun gs r => add_to_groups (column r "session_id") (row_created_at r) gs)
    rows [].

(** A stable insertion sort for ORDER BY: [before y x] tells that [y]
    must come before [x]; where it does not hold the earlier element of
    the input stays first.  The engines leave the order among equal keys
    open; the model keeps the order of the input there. *)
Section SortBy.
Context {A : Type} (before : A -> A -> bool).

Fixpoint insert_by (x : A) (l : list A) : list A :=
  match l with
  | [] => [x]
  | y :: rest =>
      if before y x then y :: insert_by x rest else x :: y :: rest
  end.

Definition sort_by (l : list A) : list A :=
  fold_right insert_by [] l.

End SortBy.

(** [ORDER BY created DESC] *)
Definition created_before (y x : session_group) : bool :=
  String.ltb (g_created x) (g_created y).

(** [LIMIT ? OFFSET ?]: SQLite reads a negative limit as no limit and a
    negative offset as zero; PostgreSQL rejects both. *)
Definition limit_offset {A} (k : backend) (limit offset : Z) (l : list A)
  : result (list A) :=
  match k with
  | SQLite =>
      let l' := skipn (Z.to_nat offset) l in
      Ok (if limit <? 0 then l' else firstn (Z.to_nat limit) l')
  | Postgres =>
      if (limit <? 0) || (offset <? 0)
      then Raise (mkExn DataError "LIMIT and OFFSET must not be negative")
      else Ok (firstn (Z.to_nat limit) (skipn (Z.to_nat offset) l))
  end.

Definition select_sessions (k : backend) (limit offset : Z)
           (rows : list row) : result (list session_group) :=
  limit_offset k limit offset (sort_by created_before (group_sessions rows)).

(** A SELECT the engine may reject. *)
Definition execute_checked {A} (c : conn) (q : list row -> result A) : M A :=
  (r <- execute_query c q ;; lift r)%M.

(** ** Emotion counts *)

Definition has_emotion (r : row) : bool :=
  negb (is_null (column r "user_emotion"))
  && negb (cell_eqb (column r "user_emotion") (PStr "")).

Fixpoint add_count (e : cell) (gs : list (cell * Z)) : list (cell * Z) :=
  match gs with
  | [] => [(e, 1)]
  | (e', n) :: rest =>
      if cell_eqb e e' then (e', n + 1) :: rest
      else (e', n) :: add_count e rest
  end.

Definition count_by_emotion (rows : list row) : list (cell * Z) :=
  fold_left (fun gs r => add_count (column r "user_emotion") gs) rows [].

(** [ORDER BY count DESC] *)
Definition count_before (y x : cell * Z) : bool := snd x <? snd y.

(** [SELECT user_emotion, COUNT( * ) as count FROM session_records
     WHERE user_emotion IS NOT NULL AND user_emotion != ''
     GROUP BY user_emotion ORDER BY count DESC LIMIT 5] *)
Definition select_top_emotions (rows : list row) : list (cell * Z) :=
  firstn 5 (sort_by count_before (count_by_emotion (filter has_emotion rows))).

(** [WHERE created_at >= (now minus one day)] *)
Definition select_recent (since : string) (rows : list row) : Z :=
  Z.of_nat (length (filter (fun r => String.leb since (row_created_at r)) rows)).

(** [WHERE session_id = ?] *)
Definition rows_of_session (session_id : string) (rows : list row)
  : list row :=
  filter (fun r => cell_eqb (column r "session_id") (PStr session_id)) rows.

(** Order of the [timestamp] column: text by its characters; NULL first
    on SQLite and last on PostgreSQL; other values are left in input
    order. *)
Definition cell_lt (k : backend) (a b : cell) : bool :=
  match a, b with
  | PStr s, PStr t => String.ltb s t
  | PNone, PNone => false
  | PNone, _ => match k with SQLite => true | Postgres => false end
  | _, PNone => match k with SQLite => false | Postgres => true end
  | _, _ => false
  end.

Definition timestamp_before (k : backend) (y x : row) : bool :=
  cell_lt k (column y "timestamp") (column x "timestamp").

(** [SELECT * FROM session_records WHERE session_id = ? ORDER BY timestamp] *)
Definition select_session (k : backend) (session_id : string)
           (rows : list row) : list row :=
  sort_by (timestamp_before k) (rows_of_session session_id rows).

(** [created_at] as fetched: sqlite3 hands the text, psycopg2 a
    [datetime]. *)
Definition fetch_created (k : backend) (created : string) : cell :=
  match k with
  | SQLite => PStr created
  | Postgres => PDatetime created
  end.

(** A fetched row as a dict ([dict(zip(columns, row))] or [dict(row)]). *)
Definition row_dict (k : backend) (r : row) : list (string * cell) :=
  ("id", PInt (row_id r))
    :: combine columns (row_cells r)
    ++ [("created_at", fetch_created k (row_created_at r))].

(* ===================================================================== *)
(** * Python helpers of the endpoints *)
(* ===================================================================== *)

Definition str_of_Z (n : Z) : string := NilZero.string_of_int (Z.to_int n).

(** [str(v)] *)
Definition py_str (c : cell) : string :=
  match c with
  | PNone => "None"
  | PBool true => "True"
  | PBool false => "False"
  | PInt n => str_of_Z n
  | PFloat r => r
  | PStr s => s
  | PDatetime t => t
  end.

(** Truth value of a fetched value. *)
Definition truthy (c : cell) : bool :=
  match c with
  | PNone => false
  | PBool b => b
  | PInt n => negb (n =? 0)
  | PFloat r => negb (String.eqb r "0.0" || String.eqb r "-0.0")
  | PStr s => negb (String.eqb s "")
  | PDatetime _ => true
  end.

(** [s.replace(' ', 'T')] *)
Fixpoint replace_space_T (s : string) : string :=
  match s with
  | EmptyString => EmptyString
  | String c rest =>
      String (if Ascii.eqb c " "%char then "T"%char else c)
             (replace_space_T rest)
  end.

(** [s.endswith(suffix)] *)
Definition endswith (s suffix : string) : bool :=
  (String.length suffix <=? String.length s)%nat
  && String.eqb
       (substring (String.length s - String.length suffix)
                  (String.length suffix) s)
       suffix.

(** [str(e)]; an [HTTPException] prints its status code and detail. *)
Definition py_str_exn (e : exn) : string :=
  match exn_cls e with
  | HTTPException status => str_of_Z status ++ ": " ++ exn_msg e
  | _ => exn_msg e
  end.

Definition http_exception (status : Z) (detail : string) : exn :=
  mkExn (HTTPException status) detail.

(** An uploaded file: its name and what [json.loads(content.decode('utf-8'))]
    makes of its content. *)
Inductive payload : Type :=
| NotUtf8
| NotJson
| Parsed (data : json).

Record upload_file : Type := mkFile {
  filename : string;
  content : payload
}.

(** [await file.read()] *)
Definition file_read (file : upload_file) : M payload :=
  fun w => (bump_file_reads w, Ok (content file)).

(** [json.loads(content.decode('utf-8'))] *)
Definition json_loads (p : payload) : result json :=
  match p with
  | NotUtf8 =>
      Raise (mkExn UnicodeDecodeError "'utf-8' codec can't decode byte")
  | NotJson => Raise (mkExn JSONDecodeError "Expecting value")
  | Parsed data => Ok data
  end.

(* ===================================================================== *)
(** * The endpoints *)
(* ===================================================================== *)

(** ** POST /upload *)

Record upload_response : Type := mkUploaded {
  up_message : string;
  records_added : Z;
  up_total_sessions : Z
}.

(** [for record in data: cursor.execute(INSERT ..., params); records_added += 1].
    The two branches on [is_sqlite] differ in the placeholder style of
    the statement only and bind the same parameter tuple. *)
Fixpoint insert_records (c : conn) (added : Z) (data : list json)
  : M (conn * Z) :=
  match data with
  | [] => ret (c, added)
  | record :: rest =>
      (params <- lift (insert_params record) ;;
       c' <- execute_insert c params ;;
       insert_records c' (added + 1) rest)%M
  end.

Definition is_json_decode_error (e : exn) : bool :=
  match exn_cls e with JSONDecodeError => true | _ => false end.

Definition upload_session_data (file : upload_file) : M upload_response :=
  if negb (endswith (filename file) ".json")
  then raise (http_exception 400 "Only JSON files are allowed")
  else
    try_except
      (content <- file_read file ;;
       data <- lift (json_loads content) ;;
       match data with
       | JArr records =>
           conn <- get_db_connection ;;
           ca <- insert_records conn 0 records ;;
           conn <- commit (fst ca) ;;
           close conn ;;;
           conn <- get_db_connection ;;
           total_sessions <- execute_query conn count_distinct_sessions ;;
           close conn ;;;
           ret (mkUploaded
                  ("Successfully uploaded " ++ str_of_Z (snd ca) ++ " records")
                  (snd ca) total_sessions)
       | _ =>
           raise (http_exception 400 "JSON must be an array of session records")
       end)%M
      (fun e =>
         if is_json_decode_error e
         then raise (http_exception 400 "Invalid JSON format")
         else raise (http_exception 500
                       ("Error processing file: " ++ py_str_exn e))).

(** ** GET /api/sessions *)

Record session_item : Type := mkItem {
  si_session_id : cell;
  si_records : Z;
  created : cell
}.

Record sessions_response : Type := mkSessions {
  items : list session_item;
  total : Z;
  has_more : bool;
  message : option string;
  error : option string
}.

(** The SQLite branch's rewrite of [session_dict['created']]. *)
Definition format_created (s : session_item) : session_item :=
  if truthy (created s)
  then
    match created s with
    | PStr t =>
        mkItem (si_session_id s) (si_records s)
               (PStr (replace_space_T t ++ "Z"))
    | v =>
        mkItem (si_session_id s) (si_records s)
               (PStr (replace_space_T (py_str v) ++ "Z"))
    end
  else s.

Definition fetch_item (k : backend) (g : session_group) : session_item :=
  mkItem (g_session_id g) (g_records g) (fetch_created k (g_created g)).

Definition error_description (e : exn) : string :=
  exn_class_name (exn_cls e) ++ ": " ++ py_str_exn e.

(** The body of the [try] block of [get_sessions]. *)
Definition list_sessions (limit offset : Z) : M sessions_response :=
  (conn <- get_db_connection ;;
   st <-
     (if is_sqlite conn
      then
        rows <- execute_checked conn (select_sessions SQLite limit offset) ;;
        let sessions :=
          map (fun g => format_created (fetch_item SQLite g)) rows in
        total_sessions <- execute_query conn count_distinct_sessions ;;
        ret (sessions, total_sessions)
      else
        rows <- execute_checked conn (select_sessions Postgres limit offset) ;;
        let sessions := map (fetch_item Postgres) rows in
        total_sessions <- execute_query conn count_distinct_sessions ;;
        ret (sessions, total_sessions)) ;;
   close conn ;;;
   if snd st =? 0
   then ret (mkSessions [] 0 false (Some "No sessions found in database") None)
   else ret (mkSessions (fst st) (snd st)
                        (Z.of_nat (length (fst st)) =? limit) None None))%M.

(** The fallback response of its [except] clause. *)
Definition sessions_fallback (e : exn) : sessions_response :=
  mkSessions [] 0 false None
    (Some ("Database connection issue: " ++ error_description e)).

Definition get_sessions (limit offset : Z) : M sessions_response :=
  try_except (list_sessions limit offset)
             (fun e => ret (sessions_fallback e)).

(** ** GET /api/sessions/{session_id} *)

Record session_records : Type := mkSessionRecords {
  sr_session_id : string;
  records : list (list (string * cell))
}.

Definition get_session_by_id (session_id : string) : M session_records :=
  (conn <- get_db_connection ;;
   sessions <-
     (if is_sqlite conn
      then
        rows <- execute_query conn (select_session SQLite session_id) ;;
        ret (map (row_dict SQLite) rows)
      else
        rows <- execute_query conn (select_session Postgres session_id) ;;
        ret (map (row_dict Postgres) rows)) ;;
   close conn ;;;
   ret (mkSessionRecords session_id sessions))%M.

(** ** GET /api/sessions/{session_id}/download *)

Definition download_session_with_nested_structure (session_id : string)
  : M (list json) :=
  (conn <- get_db_connection ;;
   flat_records <-
     (if is_sqlite conn
      then
        rows <- execute_query conn (select_session SQLite session_id) ;;
        ret (map (row_dict SQLite) rows)
      else
        rows <- execute_query conn (select_session Postgres session_id) ;;
        ret (map (row_dict Postgres) rows)) ;;
   close conn ;;;
   ret (map nested_record flat_records))%M.

(** ** GET /api/health *)

Inductive health : Type :=
| Healthy (total_records total_sessions : Z)
| Unhealthy (error : string).

Definition health_check : M health :=
  try_except
    (conn <- get_db_connection ;;
     _ <- execute_query conn (fun _ => 1) ;;
     total_records <- execute_query conn count_rows ;;
     total_sessions <- execute_query conn count_distinct_sessions ;;
     close conn ;;;
     ret (Healthy total_records total_sessions))%M
    (fun e => ret (Unhealthy (error_description e))).

(** ** GET /api/stats *)

Record stats : Type := mkStats {
  total_records : Z;
  unique_sessions : Z;
  recent_records_24h : Z;
  top_emotions : list (cell * Z)
}.

Definition get_stats : M stats :=
  (conn <- get_db_connection ;;
   total_records <- execute_query conn count_rows ;;
   unique_sessions <- execute_query conn count_distinct_sessions ;;
   since <- (fun w => (w, Ok (day_ago w))) ;;
   recent_records <- execute_query conn (select_recent since) ;;
   top_emotions <- execute_query conn select_top_emotions ;;
   close conn ;;;
   ret (mkStats total_records unique_sessions recent_records top_emotions))%M.

(** ** DELETE /api/clear *)

Definition clear_data : M string :=
  (conn <- get_db_connection ;;
   conn <- execute_delete conn ;;
   conn <- commit conn ;;
   close conn ;;;
   ret "All data cleared")%M.

(* ===================================================================== *)
(** * Nested records: paths, leaves, shape *)
(* ===================================================================== *)

(** Following a path of keys through nested objects. *)
Fixpoint lookup_path (path : list string) (v : json) : option json :=
  match path with
  | [] => Some v
  | k :: rest =>
      match v with
      | JObj d =>
          match dict_get k d with
          | Some v' => lookup_path rest v'
          | None => None
          end
      | _ => None
      end
  end.

(** The value at a leaf path, null when the path leads nowhere. *)
Definition leaf (r : json) (path : list string) : json :=
  match lookup_path path r with
  | Some v => v
  | None => JNull
  end.

(** The 26 leaf paths of a nested record, in the order of [columns]. *)
Definition leaf_paths : list (list string) :=
  [ ["session_id"]; ["phase"]; ["area"]; ["timestamp"];
    ["conversation_data"; "speaker"]; ["conversation_data"; "text"];
    ["hmd_data"; "position"; "x"]; ["hmd_data"; "position"; "y"];
    ["hmd_data"; "position"; "z"];
    ["hmd_data"; "gaze_vector"; "x"]; ["hmd_data"; "gaze_vector"; "y"];
    ["hmd_data"; "gaze_vector"; "z"];
    ["hmd_data"; "gaze_actor"]; ["hmd_data"; "movement_speed"];
    ["controller_data"; "r_position"; "x"];
    ["controller_data"; "r_position"; "y"];
    ["controller_data"; "r_position"; "z"];
    ["controller_data"; "l_position"; "x"];
    ["controller_data"; "l_position"; "y"];
    ["controller_data"; "l_position"; "z"];
    ["controller_data"; "r_interacted_actor"];
    ["controller_data"; "l_interacted_actor"];
    ["controller_data"; "r_movement_speed"];
    ["controller_data"; "l_movement_speed"];
    ["user_emotion"]; ["emotion_window_flag"] ].

(** The intermediate objects of the nested shape. *)
Definition object_paths : list (list string) :=
  [ ["conversation_data"];
    ["hmd_data"]; ["hmd_data"; "position"]; ["hmd_data"; "gaze_vector"];
    ["controller_data"]; ["controller_data"; "r_position"];
    ["controller_data"; "l_position"] ].

Definition is_object (v : json) : bool :=
  match v with JObj _ => true | _ => false end.

Definition is_scalar (v : json) : bool :=
  match v with JArr _ | JObj _ => false | _ => true end.

(** Nothing, or an object, sits at the path. *)
Definition object_or_absent (r : json) (path : list string) : bool :=
  match lookup_path path r with
  | None => true
  | Some v => is_object v
  end.

(** A nested record with any subset of its fields present: an object
    whose sub-objects, where present, are objects, and whose leaves,
    where present, are scalars. *)
Definition nested_ok (r : json) : bool :=
  is_object r && forallb (object_or_absent r) object_paths.

Definition leaves_scalar (r : json) : bool :=
  forallb (fun p => is_scalar (leaf r p)) leaf_paths.

(** The flattened form of a record: its 26 column values. *)
Definition flatten (record : json) : result (list cell) :=
  (params <- insert_params record ;; sequence (map adapt params))%result.

Definition to_cell (v : json) : cell :=
  match v with
  | JBool b => PBool b
  | JInt n => PInt n
  | JFloat r => PFloat r
  | JStr s => PStr s
  | _ => PNone
  end.

(* ===================================================================== *)
(** * Batches, store states and sample inputs *)
(* ===================================================================== *)

(** The backend a connection opened in this world reaches, if one opens. *)
Definition conn_kind (w : world) : option backend :=
  match snd (get_db_connection w) with
  | Ok c => Some (kind c)
  | Raise _ => None
  end.

(** A record whose processing raises on backend [k]. *)
Definition rejected (k : backend) (record : json) : Prop :=
  exists e, prepare k record = Raise e.

(** A well-formed record: a nested record whose [session_id] is a string
    and whose present leaves have the type of their column. *)
Definition well_formed (record : json) : bool :=
  nested_ok record
  && leaves_scalar record
  && match leaf record ["session_id"] with JStr _ => true | _ => false end
  && all_fit column_types (map to_cell (map (leaf record) leaf_paths)).

(** The [session_id] a well-formed record is stored under. *)
Definition session_id_of (record : json) : cell :=
  to_cell (leaf record ["session_id"]).


(** A world without faults, all connections closed. *)
Definition quiet (e : deployment) (table : list row) : world :=
  mkWorld e (mkDb table 100) (mkDb table 100)
          "2024-01-02 10:00:00" "2024-01-01 10:00:00" [] 0 0 0.

(** The same world with a fault plan. *)
Definition faulty (e : deployment) (table : list row)
           (fs : list (option fault)) : world :=
  set_faults (quiet e table) fs.

Definition sample_record : json :=
  JObj [ ("session_id", JStr "s1"); ("user_emotion", JStr "happy") ].

Definition sample_row : row :=
  mkRow 1
        [ PStr "s1"; PNone; PNone; PNone; PNone; PNone; PNone; PNone; PNone;
          PNone; PNone; PNone; PNone; PNone; PNone; PNone; PNone; PNone;
          PNone; PNone; PNone; PNone; PNone; PNone; PStr "happy"; PNone ]
        "2024-01-01 12:30:00".

(** A record whose [hmd_data] key holds null. *)
Definition null_hmd_record : json :=
  JObj [ ("session_id", JStr "s1"); ("hmd_data", JNull) ].

(** Tables and connection counters are the same in both worlds. *)
Definition quiet_step (w w' : world) : Prop :=
  pg w' = pg w /\ lite w' = lite w
  /\ opened w' = opened w /\ closed w' = closed w.

(** An operation ends in the same tables. *)
Definition same_tables (w w' : world) : Prop :=
  pg w' = pg w /\ lite w' = lite w.

(** The operation opened [n] connections and closed [n]. *)
Definition balanced (n : nat) (w w' : world) : Prop :=
  opened w' = (opened w + n)%nat /\ closed w' = (closed w + n)%nat.

(** The backend a connection reaches when nothing fails. *)
Definition home_backend (e : deployment) : backend :=
  match e with
  | UseSqlite => SQLite
  | _ => Postgres
  end.

(** The table the operations of a fault-free world work on. *)
Definition table (w : world) : list row :=
  db_rows (database_of w (home_backend (env w))).

(** The cells a well-formed record is stored as. *)
Definition stored_cells (record : json) : list cell :=
  map to_cell (map (leaf record) leaf_paths).

(** Rows numbered from [next], all created at [t]. *)
Fixpoint new_rows (next : Z) (t : string) (cs : list (list cell))
  : list row :=
  match cs with
  | [] => []
  | c :: rest => mkRow next c t :: new_rows (next + 1) t rest
  end.

Definition second_record : json :=
  JObj [ ("session_id", JStr "s2");
         ("hmd_data", JObj [ ("position", JObj [ ("x", JFloat "1.5") ]) ]);
         ("user_emotion", JStr "excited");
         ("emotion_window_flag", JBool true) ].

(** Counts do not increase along the list. *)
Definition count_desc (a b : cell * Z) : Prop := snd b <= snd a.

(** An emotion that is neither null nor the empty string. *)
Definition named_emotion (p : cell * Z) : Prop :=
  fst p <> PNone /\ fst p <> PStr "".

(** The stats of a table holding [sample_row] alone. *)
Definition sample_stats : stats := mkStats 1 1 1 [(PStr "happy", 1)].

(** An exception the upload handler answers with status 500. *)
Definition not_json_error (e : exn) : Prop := is_json_decode_error e = false.

(** A computation that raises, if at all, only exceptions in [P]. *)
Definition raises_only {A} (P : exn -> Prop) (m : result A) : Prop :=
  forall e, m = Raise e -> P e.

(* ===================================================================== *)
(** * Specifications of monadic code *)
(* ===================================================================== *)

(** Whatever [m] does and however it ends, the worlds before and after
    are related by [R], and a returned value satisfies [Q]. *)
Definition post {A} (R : world -> world -> Prop) (Q : A -> Prop) (m : M A)
  : Prop :=
  forall w w' r, m w = (w', r) -> R w w' /\ (forall a, r = Ok a -> Q a).

Definition any {A} (a : A) : Prop := True.

(** A stored row with a [session_id]. *)
Definition keyed_row (r : row) : Prop := column r "session_id" <> PNone.

(** The rows of [d] are still there, in place, followed by new rows that
    have a [session_id]. *)
Definition appended (d d' : database) : Prop :=
  exists added,
    db_rows d' = (db_rows d ++ added)%list /\ Forall keyed_row added.

(** Both tables keep the rows they had. *)
Definition grows (w w' : world) : Prop :=
  appended (pg w) (pg w') /\ appended (lite w) (lite w').

Definition keyed_insert (s : statement) : Prop :=
  match s with
  | Insert cells _ => hd PNone cells <> PNone
  | DeleteAll => False
  end.

(** A transaction that only inserts rows the engine has checked. *)
Definition keyed_inserts (c : conn) : Prop := Forall keyed_insert (pending c).

(** No stored row lacks its [session_id]. *)
Definition all_keyed (w : world) : Prop :=
  Forall keyed_row (db_rows (pg w)) /\ Forall keyed_row (db_rows (lite w)).

(** The item the listing makes of a group on backend [k]. *)
Definition listed (k : backend) (g : session_group) : session_item :=
  match k with
  | SQLite => format_created (fetch_item SQLite g)
  | Postgres => fetch_item Postgres g
  end.

Definition no_sessions_response : sessions_response :=
  mkSessions [] 0 false (Some "No sessions found in database") None.

(** Each table is as it was, or empty. *)
Definition kept_or_emptied (w w' : world) : Prop :=
  (db_rows (pg w') = db_rows (pg w) \/ db_rows (pg w') = [])
  /\ (db_rows (lite w') = db_rows (lite w) \/ db_rows (lite w') = []).

(** A transaction holding the DELETE alone. *)
Definition deletes_all (c : conn) : Prop := pending c = [DeleteAll].

(** The exception is an [AttributeError]. *)
Definition attribute_error (e : exn) : Prop := exn_cls e = AttributeError.

(** [record[name]] of a fetched row, null where the key is missing. *)
Definition record_field (record : list (string * cell)) (name : string)
  : cell :=
  match dict_get name record with
  | Some c => c
  | None => PNone
  end.

Fixpoint sum_counts (gs : list (cell * Z)) : Z :=
  match gs with
  | [] => 0
  | g :: rest => snd g + sum_counts rest
  end.

(** Groups in the order of ORDER BY created DESC: the next one is not
    created later. *)
Definition created_desc (a b : session_group) : Prop :=
  String.ltb (g_created a) (g_created b) = false.

Fixpoint has_space (s : string) : bool :=
  match s with
  | EmptyString => false
  | String c rest => Ascii.eqb c " "%char || has_space rest
  end.

(** Connections opened and closed are as many as before. *)
Definition same_counters (w w' : world) : Prop :=
  opened w' = opened w /\ closed w' = closed w.





(** Text of characters 1 to 127: no NUL, nothing the drivers have to
    encode beyond ASCII. *)
Fixpoint ascii_text (s : string) : bool :=
  match s with
  | EmptyString => true
  | String c rest =>
      (1 <=? nat_of_ascii c)%nat && (nat_of_ascii c <=? 127)%nat
      && ascii_text rest
  end.

Definition plain_char (c : ascii) : bool :=
  ((48 <=? nat_of_ascii c)%nat && (nat_of_ascii c <=? 57)%nat)
  || Ascii.eqb c "."%char || Ascii.eqb c "-"%char.

Fixpoint plain_chars (s : string) : bool :=
  match s with
  | EmptyString => true
  | String c rest => plain_char c && plain_chars rest
  end.

(** A float whose [repr] is plain decimal notation of at most 32
    characters (no exponent, no [inf], no [nan]): its magnitude is zero
    or between 1e-31 and 1e32, inside the range of a single-precision
    REAL column. *)
Definition plain_decimal (r : string) : bool :=
  plain_chars r && (String.length r <=? 32)%nat.

(** A value both drivers bind and both engines take in a column of its
    type: a 64-bit integer, a float of plain decimal [repr], ASCII text
    without NUL, a boolean or null. *)
Definition safe_value (v : json) : bool :=
  match v with
  | JInt n => (- 2 ^ 63 <=? n) && (n <? 2 ^ 63)
  | JFloat r => plain_decimal r
  | JStr s => ascii_text s
  | _ => true
  end.

(** A well-formed record all of whose leaves are safe values. *)
Definition storable (record : json) : bool :=
  well_formed record && forallb safe_value (map (leaf record) leaf_paths).

(* ===================================================================== *)
(** * Facts about the transcoder *)
(* ===================================================================== *)

Lemma get1_leaf d k : get1 (JObj d) k = Ok (leaf (JObj d) [k]).
Proof.
  unfold get1, leaf; simpl. destruct (dict_get k d); reflexivity.
Qed.

Lemma get2_leaf d k1 k2 :
  object_or_absent (JObj d) [k1] = true ->
  get2 (JObj d) k1 k2 = Ok (leaf (JObj d) [k1; k2]).
Proof.
  unfold get2, leaf, object_or_absent; simpl.
  destruct (dict_get k1 d) as [v|]; simpl; [|reflexivity].
  destruct v; simpl; try discriminate. intros _.
  destruct (dict_get k2 fields); reflexivity.
Qed.

Lemma get3_leaf d k1 k2 k3 :
  object_or_absent (JObj d) [k1] = true ->
  object_or_absent (JObj d) [k1; k2] = true ->
  get3 (JObj d) k1 k2 k3 = Ok (leaf (JObj d) [k1; k2; k3]).
Proof.
  unfold get3, leaf, object_or_absent; simpl.
  destruct (dict_get k1 d) as [v|]; simpl; [|reflexivity].
  destruct v; simpl; try discriminate. intros _.
  destruct (dict_get k2 fields) as [v|]; simpl; [|reflexivity].
  destruct v; simpl; try discriminate. intros _.
  destruct (dict_get k3 fields0); reflexivity.
Qed.

Lemma insert_params_leaves r :
  nested_ok r = true -> insert_params r = Ok (map (leaf r) leaf_paths).
Proof.
  unfold nested_ok. destruct r; simpl; try discriminate.
  intros H.
  repeat (apply andb_prop in H; destruct H as [? H]).
  unfold insert_params.
  rewrite !get1_leaf, !get2_leaf, !get3_leaf by assumption.
  reflexivity.
Qed.

Lemma adapt_scalars l :
  forallb is_scalar l = true -> sequence (map adapt l) = Ok (map to_cell l).
Proof.
  induction l as [|v l IH]; simpl; [reflexivity|].
  intros H. apply andb_prop in H. destruct H as [Hv Hl].
  rewrite (IH Hl). destruct v; simpl in *; try discriminate; reflexivity.
Qed.

Lemma cell_json_to_cell v : is_scalar v = true -> cell_json (to_cell v) = v.
Proof. destruct v; simpl; try discriminate; reflexivity. Qed.

Lemma flatten_leaves r :
  nested_ok r = true -> leaves_scalar r = true ->
  flatten r = Ok (map to_cell (map (leaf r) leaf_paths)).
Proof.
  intros Hn Hs. unfold flatten. rewrite (insert_params_leaves r Hn). unfold rbind.
  apply adapt_scalars. unfold leaves_scalar in Hs.
  rewrite forallb_forall in *. intros v Hv.
  apply in_map_iff in Hv. destruct Hv as [p [<- Hp]]. exact (Hs p Hp).
Qed.

(** The reconstruction reads each leaf from the column of the same
    position. *)
Lemma nested_record_leaf k id created (f : list string -> cell) p :
  In p leaf_paths ->
  lookup_path p (nested_record (row_dict k (mkRow id (map f leaf_paths) created)))
  = Some (cell_json (f p)).
Proof.
  intros H. simpl in H.
  repeat (destruct H as [<- | H]; [reflexivity|]). contradiction.
Qed.

Lemma nested_record_shape record p :
  In p object_paths ->
  exists fields, lookup_path p (nested_record record) = Some (JObj fields).
Proof.
  intros H. simpl in H.
  repeat (destruct H as [<- | H]; [eexists; reflexivity|]). contradiction.
Qed.

(** C1: for a nested record with any subset of its fields present,
    flattening succeeds, and the reconstruction of the stored row holds
    every present leaf unchanged, null at every absent leaf, and an object
    at every intermediate position of the fixed shape. *)
Theorem roundtrip_unflatten_flatten :
  forall r,
    nested_ok r = true -> leaves_scalar r = true ->
    exists cells,
      flatten r = Ok cells /\
      forall k id created_at,
        let out := nested_record (row_dict k (mkRow id cells created_at)) in
        (forall p v, In p leaf_paths ->
                     lookup_path p r = Some v -> lookup_path p out = Some v)
        /\ (forall p, In p leaf_paths ->
                      lookup_path p r = None -> lookup_path p out = Some JNull)
        /\ (forall p, In p object_paths ->
                      exists fields, lookup_path p out = Some (JObj fields)).
Proof.
  intros r Hn Hs. eexists. split; [apply flatten_leaves; assumption|].
  intros k id created_at out. subst out.
  assert (Hleaf : forall p, In p leaf_paths ->
            lookup_path p
              (nested_record
                 (row_dict k (mkRow id (map to_cell (map (leaf r) leaf_paths))
                                    created_at)))
            = Some (leaf r p)).
  { intros p Hp. rewrite map_map.
    rewrite (nested_record_leaf k id created_at (fun x => to_cell (leaf r x)) p Hp).
    f_equal. apply cell_json_to_cell.
    unfold leaves_scalar in Hs. rewrite forallb_forall in Hs. exact (Hs p Hp). }
  split; [|split].
  - intros p v Hp Hv. rewrite (Hleaf p Hp). unfold leaf. rewrite Hv. reflexivity.
  - intros p Hp Hv. rewrite (Hleaf p Hp). unfold leaf. rewrite Hv. reflexivity.
  - intros p Hp. apply nested_record_shape. exact Hp.
Qed.

Lemma roundtrip_unflatten_flatten_witness :
  exists cells,
    flatten sample_record = Ok cells /\
    forall k id created_at,
      let out := nested_record (row_dict k (mkRow id cells created_at)) in
      (forall p v, In p leaf_paths ->
                   lookup_path p sample_record = Some v ->
                   lookup_path p out = Some v)
      /\ (forall p, In p leaf_paths ->
                    lookup_path p sample_record = None ->
                    lookup_path p out = Some JNull)
      /\ (forall p, In p object_paths ->
                    exists fields, lookup_path p out = Some (JObj fields)).
Proof.
  apply (roundtrip_unflatten_flatten sample_record); reflexivity.
Defined.

(** C2: a record whose [hmd_data] key is present with the value null
    makes the column extraction raise; the upload of a batch holding it,
    after a record that is fine, fails with status 500 and writes
    nothing. *)
Theorem flatten_null_subobject_raises :
  insert_params null_hmd_record = Raise (no_attribute_get JNull)
  /\ exists w',
       upload_session_data
         (mkFile "batch.json"
                 (Parsed (JArr [sample_record; null_hmd_record])))
         (quiet UseSqlite [sample_row])
       = (w', Raise (http_exception 500
                "Error processing file: 'NoneType' object has no attribute 'get'"))
       /\ same_tables (quiet UseSqlite [sample_row]) w'.
Proof.
  split; [reflexivity|].
  eexists. split; [reflexivity|split; reflexivity].
Qed.

(** C10: a file whose name does not end in [.json] is rejected with
    status 400 and the world is left as it was: the file is not read, no
    connection is opened, no table changes. *)
Theorem upload_rejects_other_filenames :
  forall file w,
    endswith (filename file) ".json" = false ->
    upload_session_data file w
    = (w, Raise (http_exception 400 "Only JSON files are allowed")).
Proof.
  intros file w H. unfold upload_session_data. rewrite H. reflexivity.
Qed.

Lemma upload_rejects_other_filenames_witness :
  upload_session_data
    (mkFile "notes.txt" (Parsed (JArr [sample_record])))
    (quiet UseSqlite [sample_row])
  = (quiet UseSqlite [sample_row],
     Raise (http_exception 400 "Only JSON files are allowed")).
Proof.
  apply (upload_rejects_other_filenames
           (mkFile "notes.txt" (Parsed (JArr [sample_record])))
           (quiet UseSqlite [sample_row])).
  reflexivity.
Defined.

(* ===================================================================== *)
(** * Stepping through the monad *)
(* ===================================================================== *)

Lemma bind_inv {A B} (m : M A) (f : A -> M B) w w' r :
  bind m f w = (w', r) ->
  (exists w1 a, m w = (w1, Ok a) /\ f a w1 = (w', r))
  \/ (exists e, m w = (w', Raise e) /\ r = Raise e).
Proof.
  unfold bind. destruct (m w) as [w1 [a|e]]; intros H.
  - left. eauto.
  - right. inversion H; subst. eauto.
Qed.

Lemma bind_ok {A B} (m : M A) (f : A -> M B) w w' b :
  bind m f w = (w', Ok b) ->
  exists w1 a, m w = (w1, Ok a) /\ f a w1 = (w', Ok b).
Proof.
  intros H. apply bind_inv in H. destruct H as [H | [e [_ H]]];
    [assumption | discriminate].
Qed.

Lemma quiet_step_refl w : quiet_step w w.
Proof. repeat split. Qed.

Lemma quiet_step_trans a b c :
  quiet_step a b -> quiet_step b c -> quiet_step a c.
Proof.
  unfold quiet_step. intros (?&?&?&?) (?&?&?&?).
  repeat split; congruence.
Qed.

Lemma backend_call_quiet w w' r :
  backend_call w = (w', r) -> quiet_step w w'.
Proof.
  unfold backend_call. destruct (faults w) as [|[f|] fs]; intros H;
    inversion H; subst; repeat split.
Qed.

Lemma lift_quiet {A} (x : result A) w w' r :
  lift x w = (w', r) -> quiet_step w w' /\ r = x.
Proof.
  unfold lift. intros H. inversion H; subst. split; [apply quiet_step_refl|reflexivity].
Qed.

Lemma execute_query_quiet {A} c (q : list row -> A) w w' r :
  execute_query c q w = (w', r) -> quiet_step w w'.
Proof.
  unfold execute_query. intros H. apply bind_inv in H.
  destruct H as [(w1 & a & H1 & H2) | (e & H1 & _)].
  - apply backend_call_quiet in H1. inversion H2; subst. exact H1.
  - apply backend_call_quiet in H1. exact H1.
Qed.

(** What a query returns is the query applied to some table. *)
Lemma execute_query_value {A} c (q : list row -> A) w w' a :
  execute_query c q w = (w', Ok a) -> exists rows, a = q rows.
Proof.
  unfold execute_query. intros H. apply bind_ok in H.
  destruct H as (w1 & u & _ & H2). inversion H2; subst. eauto.
Qed.

Lemma execute_checked_quiet {A} c (q : list row -> result A) w w' r :
  execute_checked c q w = (w', r) -> quiet_step w w'.
Proof.
  unfold execute_checked. intros H. apply bind_inv in H.
  destruct H as [(w1 & a & H1 & H2) | (e & H1 & _)].
  - apply execute_query_quiet in H1. apply lift_quiet in H2.
    destruct H2 as [H2 _]. eapply quiet_step_trans; eassumption.
  - apply execute_query_quiet in H1. exact H1.
Qed.

Lemma execute_insert_quiet c params w w' r :
  execute_insert c params w = (w', r) -> quiet_step w w'.
Proof.
  unfold execute_insert. intros H.
  apply bind_inv in H. destruct H as [(w1 & cells & H1 & H) | (e & H1 & _)];
    apply lift_quiet in H1; destruct H1 as [Q1 _]; [|exact Q1].
  apply bind_inv in H. destruct H as [(w2 & u & H2 & H) | (e & H2 & _)];
    apply backend_call_quiet in H2;
    [|eapply quiet_step_trans; eassumption].
  apply bind_inv in H. destruct H as [(w3 & u' & H3 & H) | (e & H3 & _)];
    apply lift_quiet in H3; destruct H3 as [Q3 _].
  - inversion H; subst.
    eapply quiet_step_trans; [eassumption|].
    eapply quiet_step_trans; eassumption.
  - eapply quiet_step_trans; [eassumption|].
    eapply quiet_step_trans; eassumption.
Qed.

Lemma execute_insert_kind c params w w' c' :
  execute_insert c params w = (w', Ok c') -> kind c' = kind c.
Proof.
  unfold execute_insert. intros H.
  apply bind_ok in H. destruct H as (w1 & cells & _ & H).
  apply bind_ok in H. destruct H as (w2 & u & _ & H).
  apply bind_ok in H. destruct H as (w3 & u' & _ & H).
  inversion H; subst. reflexivity.
Qed.

Lemma insert_records_quiet data : forall c n w w' r,
  insert_records c n data w = (w', r) -> quiet_step w w'.
Proof.
  induction data as [|record rest IH]; simpl; intros c n w w' r H.
  - inversion H; subst. apply quiet_step_refl.
  - apply bind_inv in H. destruct H as [(w1 & ps & H1 & H) | (e & H1 & _)];
      apply lift_quiet in H1; destruct H1 as [Q1 _]; [|exact Q1].
    apply bind_inv in H. destruct H as [(w2 & c' & H2 & H) | (e & H2 & _)];
      apply execute_insert_quiet in H2;
      [|eapply quiet_step_trans; eassumption].
    apply IH in H.
    eapply quiet_step_trans; [eassumption|].
    eapply quiet_step_trans; eassumption.
Qed.

Lemma execute_delete_quiet c w w' r :
  execute_delete c w = (w', r) -> quiet_step w w'.
Proof.
  unfold execute_delete. intros H. apply bind_inv in H.
  destruct H as [(w1 & a & H1 & H2) | (e & H1 & _)];
    apply backend_call_quiet in H1; [|exact H1].
  inversion H2; subst. exact H1.
Qed.

Lemma connect_ok k w w' c :
  connect k w = (w', Ok c) ->
  same_tables w w' /\ opened w' = S (opened w) /\ closed w' = closed w
  /\ c = mkConn k [].
Proof.
  unfold connect. intros H. apply bind_ok in H.
  destruct H as (w1 & u & H1 & H2). apply backend_call_quiet in H1.
  destruct H1 as (?&?&?&?). inversion H2; subst.
  unfold same_tables. simpl. repeat split; congruence.
Qed.

Lemma connect_raise k w w' e :
  connect k w = (w', Raise e) -> quiet_step w w'.
Proof.
  unfold connect. intros H. apply bind_inv in H.
  destruct H as [(w1 & u & H1 & H2) | (e' & H1 & _)].
  - inversion H2.
  - apply backend_call_quiet in H1. exact H1.
Qed.

Lemma get_db_connection_ok w w' c :
  get_db_connection w = (w', Ok c) ->
  same_tables w w' /\ opened w' = S (opened w) /\ closed w' = closed w
  /\ pending c = [].
Proof.
  unfold get_db_connection.
  destruct (env w) as [[url|]| |]; intros H.
  - unfold try_except in H.
    destruct (bind (connect Postgres) _ w) as [w1 [c1|e]] eqn:E;
      [|discriminate H].
    inversion H; subst. apply bind_ok in E.
    destruct E as (w2 & c2 & E1 & E). apply connect_ok in E1.
    apply bind_ok in E. destruct E as (w3 & z & E2 & E).
    apply execute_query_quiet in E2. inversion E; subst.
    destruct E1 as ((?&?)&?&?&?). destruct E2 as (?&?&?&?). subst c.
    unfold same_tables. simpl. repeat split; congruence.
  - discriminate H.
  - apply connect_ok in H. destruct H as (?&?&?&?). subst c. auto.
  - unfold try_except in H.
    destruct (connect Postgres w) as [w1 [c1|e]] eqn:E.
    + inversion H; subst. apply connect_ok in E.
      destruct E as (?&?&?&?). subst c. auto.
    + apply connect_raise in E. destruct (is_operational_error e).
      * apply connect_ok in H. destruct H as ((?&?)&?&?&?).
        destruct E as (?&?&?&?). subst c.
        unfold same_tables. simpl. repeat split; congruence.
      * discriminate H.
Qed.

Lemma get_db_connection_tables w w' r :
  get_db_connection w = (w', r) -> same_tables w w'.
Proof.
  destruct r as [c|e]; intros H.
  - apply get_db_connection_ok in H. tauto.
  - revert H. unfold get_db_connection.
    destruct (env w) as [[url|]| |]; intros H.
    + unfold try_except in H.
      destruct (bind (connect Postgres) _ w) as [w1 [c1|e1]] eqn:E;
        [discriminate H|].
      inversion H; subst. apply bind_inv in E.
      destruct E as [(w2 & c2 & E1 & E) | (e2 & E1 & _)].
      * apply connect_ok in E1. destruct E1 as ((?&?)&_).
        apply bind_inv in E.
        destruct E as [(w3 & z & E2 & E) | (e3 & E2 & _)].
        -- inversion E.
        -- apply execute_query_quiet in E2. destruct E2 as (?&?&_).
           split; congruence.
      * apply connect_raise in E1. destruct E1 as (?&?&_). split; congruence.
    + inversion H; subst. split; reflexivity.
    + apply connect_raise in H. destruct H as (?&?&_). split; congruence.
    + unfold try_except in H.
      destruct (connect Postgres w) as [w1 [c1|e1]] eqn:E; [discriminate H|].
      apply connect_raise in E. destruct E as (?&?&_).
      destruct (is_operational_error e1).
      * apply connect_raise in H. destruct H as (?&?&_). split; congruence.
      * inversion H; subst. split; congruence.
Qed.

Lemma commit_counters c w w' r :
  commit c w = (w', r) -> opened w' = opened w /\ closed w' = closed w.
Proof.
  unfold commit. intros H. apply bind_inv in H.
  destruct H as [(w1 & u & H1 & H2) | (e & H1 & _)];
    apply backend_call_quiet in H1; destruct H1 as (_&_&?&?).
  - inversion H2; subst. destruct (kind c); simpl; split; congruence.
  - split; congruence.
Qed.

Lemma commit_raise c w w' e :
  commit c w = (w', Raise e) -> quiet_step w w'.
Proof.
  unfold commit. intros H. apply bind_inv in H.
  destruct H as [(w1 & u & H1 & H2) | (e' & H1 & _)].
  - inversion H2.
  - apply backend_call_quiet in H1. exact H1.
Qed.

Lemma close_eq c w : close c w = (bump_closed w, Ok tt).
Proof. reflexivity. Qed.

(* ===================================================================== *)
(** * Listing sessions *)
(* ===================================================================== *)

(** The three shapes a listing response can take. *)
Lemma list_sessions_shape limit offset w w' resp :
  list_sessions limit offset w = (w', Ok resp) ->
  resp = mkSessions [] 0 false (Some "No sessions found in database") None
  \/ exists sessions total_sessions,
       total_sessions <> 0
       /\ resp = mkSessions sessions total_sessions
                            (Z.of_nat (length sessions) =? limit) None None.
Proof.
  unfold list_sessions. intros H.
  apply bind_ok in H. destruct H as (w1 & c & _ & H).
  apply bind_ok in H. destruct H as (w2 & st & _ & H).
  apply bind_ok in H. destruct H as (w3 & u & _ & H).
  destruct (Z.eqb_spec (snd st) 0) as [E|E]; inversion H; subst.
  - left. reflexivity.
  - right. exists (fst st), (snd st). split; [exact E|reflexivity].
Qed.

Lemma get_sessions_returns limit offset w :
  exists w' resp, get_sessions limit offset w = (w', Ok resp).
Proof.
  unfold get_sessions, try_except.
  destruct (list_sessions limit offset w) as [w' [resp|e]];
    eexists _, _; reflexivity.
Qed.

(** C4, as the code has it: the listing always answers, and [has_more]
    is true exactly when the page holds [limit] items and the reported
    total is not zero. *)
Theorem has_more_iff_full_page_of_nonempty_store :
  forall w limit offset,
  exists w' resp,
    get_sessions limit offset w = (w', Ok resp)
    /\ (has_more resp = true
        <-> Z.of_nat (length (items resp)) = limit /\ total resp <> 0).
Proof.
  intros w limit offset. unfold get_sessions, try_except.
  destruct (list_sessions limit offset w) as [w' [resp|e]] eqn:E.
  - exists w', resp. split; [reflexivity|].
    apply list_sessions_shape in E.
    destruct E as [-> | (sessions & n & Hn & ->)]; simpl.
    + split; [discriminate | intros [_ H]; congruence].
    + rewrite Z.eqb_eq. tauto.
  - eexists _, _. split; [reflexivity|]. simpl.
    split; [discriminate | intros [_ H]; congruence].
Qed.

(** C4, as stated, fails on an empty store with [limit = 0]: the page has
    as many items as the limit, and [has_more] is false. *)
Lemma has_more_false_on_empty_store_limit_zero :
  ~ (forall w limit offset resp,
       snd (get_sessions limit offset w) = Ok resp ->
       (has_more resp = true <-> Z.of_nat (length (items resp)) = limit)).
Proof.
  intros H.
  specialize (H (quiet UseSqlite []) 0 0 _ eq_refl).
  simpl in H. destruct H as [_ H]. specialize (H eq_refl). discriminate H.
Qed.

(* ===================================================================== *)
(** * Failures of the backend *)
(* ===================================================================== *)

(** C5, as the code has it: the listing never raises, and a failure
    inside it yields the empty response carrying the error description;
    the stats operation has no handler, and a failure to connect or of
    its first query is raised to the caller. *)
Theorem listing_degrades_stats_raises :
  (forall w limit offset,
      exists w' resp, get_sessions limit offset w = (w', Ok resp))
  /\ (forall w limit offset w' e,
        list_sessions limit offset w = (w', Raise e) ->
        exists resp,
          get_sessions limit offset w = (w', Ok resp)
          /\ items resp = [] /\ total resp = 0 /\ has_more resp = false
          /\ error resp
             = Some ("Database connection issue: " ++ error_description e))
  /\ (forall w w' e,
        get_db_connection w = (w', Raise e) -> get_stats w = (w', Raise e))
  /\ (forall w w1 c f fs,
        get_db_connection w = (w1, Ok c) ->
        faults w1 = Some f :: fs ->
        get_stats w = (set_faults w1 fs, Raise (exn_of_fault f))).
Proof.
  split; [|split; [|split]].
  - intros. apply get_sessions_returns.
  - intros w limit offset w' e H. exists (sessions_fallback e).
    unfold get_sessions, try_except. rewrite H. simpl. auto.
  - intros w w' e H. unfold get_stats, bind. rewrite H. reflexivity.
  - intros w w1 c f fs H Hf. unfold get_stats, bind at 1. rewrite H.
    unfold bind at 1. unfold execute_query at 1, bind at 1, backend_call.
    rewrite Hf. reflexivity.
Qed.

Lemma listing_degrades_stats_raises_witness :
  (exists resp,
      get_sessions 10 0 (faulty UseSqlite [sample_row]
                                [Some (Operational "unable to open database file")])
      = (quiet UseSqlite [sample_row], Ok resp)
      /\ items resp = [] /\ total resp = 0 /\ has_more resp = false
      /\ error resp
         = Some ("Database connection issue: "
                   ++ error_description
                        (mkExn OperationalError "unable to open database file")))
  /\ get_stats (faulty UseSqlite [sample_row]
                       [Some (Operational "unable to open database file")])
     = (quiet UseSqlite [sample_row],
        Raise (mkExn OperationalError "unable to open database file")).
Proof.
  destruct listing_degrades_stats_raises as (_ & HL & HS & _).
  split.
  - apply (HL (faulty UseSqlite [sample_row]
                      [Some (Operational "unable to open database file")])
              10 0). reflexivity.
  - apply (HS (faulty UseSqlite [sample_row]
                      [Some (Operational "unable to open database file")])).
    reflexivity.
Defined.

(** C5, as stated, fails for the stats operation: with a backend that
    refuses the connection it raises instead of answering. *)
Lemma stats_raises_on_backend_failure :
  exists w' e,
    get_stats (faulty UseSqlite [sample_row]
                      [Some (Operational "unable to open database file")])
    = (w', Raise e).
Proof. eexists _, _. reflexivity. Qed.

(* ===================================================================== *)
(** * Connections *)
(* ===================================================================== *)

Tactic Notation "step" hyp(H) "as" ident(w1) ident(a) ident(S1) :=
  apply bind_ok in H; destruct H as (w1 & a & S1 & H).

Ltac frame S1 :=
  first
    [ apply get_db_connection_ok in S1
    | apply execute_query_quiet in S1
    | apply execute_checked_quiet in S1
    | apply insert_records_quiet in S1
    | apply execute_delete_quiet in S1
    | apply commit_counters in S1
    | apply lift_quiet in S1
    | rewrite close_eq in S1; inversion S1; subst; clear S1
    | inversion S1; subst; clear S1 ].

Ltac count_up :=
  unfold balanced, quiet_step, same_tables in *; simpl in *;
  repeat match goal with
         | H : _ /\ _ |- _ => destruct H
         end;
  split; lia.

Lemma select_rows_quiet k c session_id w w' r :
  bind (execute_query c (select_session k session_id))
       (fun rows => ret (map (row_dict k) rows)) w = (w', r) ->
  quiet_step w w'.
Proof.
  intros H. apply bind_inv in H.
  destruct H as [(w1 & a & H1 & H2) | (e & H1 & _)];
    apply execute_query_quiet in H1; [|exact H1].
  inversion H2; subst. exact H1.
Qed.

Lemma page_quiet k c limit offset (f : session_group -> session_item) w w' r :
  bind (execute_checked c (select_sessions k limit offset))
       (fun rows =>
          bind (execute_query c count_distinct_sessions)
               (fun total_sessions => ret (map f rows, total_sessions)))
       w = (w', r) ->
  quiet_step w w'.
Proof.
  intros H. apply bind_inv in H.
  destruct H as [(w1 & a & H1 & H) | (e & H1 & _)];
    apply execute_checked_quiet in H1; [|exact H1].
  apply bind_inv in H.
  destruct H as [(w2 & b & H2 & H) | (e & H2 & _)];
    apply execute_query_quiet in H2;
    [|eapply quiet_step_trans; eassumption].
  inversion H; subst. eapply quiet_step_trans; eassumption.
Qed.

Lemma list_sessions_balanced limit offset w w' r :
  list_sessions limit offset w = (w', Ok r) -> balanced 1 w w'.
Proof.
  unfold list_sessions. intros H.
  step H as w1 c S1. frame S1. step H as w2 st S2.
  assert (Q : quiet_step w1 w2)
    by (destruct (is_sqlite c); eapply page_quiet; eassumption).
  step H as w3 u S3. frame S3.
  destruct (snd st =? 0); inversion H; subst; count_up.
Qed.


Lemma get_sessions_balanced limit offset w w' r :
  get_sessions limit offset w = (w', Ok r) -> error r = None ->
  balanced 1 w w'.
Proof.
  unfold get_sessions, try_except.
  destruct (list_sessions limit offset w) as [w1 [a|e]] eqn:E; intros H H0.
  - inversion H; subst. apply list_sessions_balanced in E. apply E.
  - inversion H; subst. discriminate H0.
Qed.

Lemma get_session_by_id_balanced session_id w w' r :
  get_session_by_id session_id w = (w', Ok r) -> balanced 1 w w'.
Proof.
  unfold get_session_by_id. intros H.
  step H as w1 c S1. frame S1. step H as w2 rs S2.
  assert (Q : quiet_step w1 w2)
    by (destruct (is_sqlite c); eapply select_rows_quiet; eassumption).
  step H as w3 u S3. frame S3. inversion H; subst. count_up.
Qed.

Lemma download_balanced session_id w w' r :
  download_session_with_nested_structure session_id w = (w', Ok r) ->
  balanced 1 w w'.
Proof.
  unfold download_session_with_nested_structure. intros H.
  step H as w1 c S1. frame S1. step H as w2 rs S2.
  assert (Q : quiet_step w1 w2)
    by (destruct (is_sqlite c); eapply select_rows_quiet; eassumption).
  step H as w3 u S3. frame S3. inversion H; subst. count_up.
Qed.

Lemma get_stats_balanced w w' r :
  get_stats w = (w', Ok r) -> balanced 1 w w'.
Proof.
  unfold get_stats. intros H.
  step H as w1 c S1. frame S1. step H as w2 n2 S2. frame S2.
  step H as w3 n3 S3. frame S3. step H as w4 since S4.
  inversion S4; subst; clear S4.
  step H as w5 n5 S5. frame S5. step H as w6 n6 S6. frame S6.
  step H as w7 u7 S7. frame S7. inversion H; subst. count_up.
Qed.

Lemma health_check_balanced w w' total_records total_sessions :
  health_check w = (w', Ok (Healthy total_records total_sessions)) ->
  balanced 1 w w'.
Proof.
  unfold health_check, try_except. intros H.
  match type of H with
  | context [match ?body w with _ => _ end] =>
      destruct (body w) as [w0 [a|e]] eqn:E
  end; [|discriminate H].
  inversion H; subst.
  step E as w1 c S1. frame S1. step E as w2 n2 S2. frame S2.
  step E as w3 n3 S3. frame S3. step E as w4 n4 S4. frame S4.
  step E as w5 u5 S5. frame S5. inversion E; subst. count_up.
Qed.

Lemma clear_data_balanced w w' r :
  clear_data w = (w', Ok r) -> balanced 1 w w'.
Proof.
  unfold clear_data. intros H.
  step H as w1 c S1. frame S1. step H as w2 c2 S2. frame S2.
  step H as w3 c3 S3. frame S3. step H as w4 u4 S4. frame S4.
  inversion H; subst. count_up.
Qed.


(* ===================================================================== *)
(** * Exceptions a batch can raise *)
(* ===================================================================== *)

Lemma sequence_raises_only {A} (P : exn -> Prop) (ms : list (result A)) :
  Forall (raises_only P) ms -> raises_only P (sequence ms).
Proof.
  induction 1 as [|m ms Hm _ IH]; intros e; simpl; [discriminate|].
  destruct m as [a|e1]; simpl.
  - destruct (sequence ms) as [xs|e2]; simpl; [discriminate|].
    intros H. inversion H; subst. apply IH. reflexivity.
  - intros H. inversion H; subst. apply Hm. reflexivity.
Qed.

Lemma py_get_raises o k d : raises_only not_json_error (py_get o k d).
Proof. intros e. destruct o; simpl; intros H; inversion H; reflexivity. Qed.

Lemma get1_raises r k : raises_only not_json_error (get1 r k).
Proof. apply py_get_raises. Qed.

Lemma get2_raises r k1 k2 : raises_only not_json_error (get2 r k1 k2).
Proof.
  intros e. unfold get2.
  destruct (py_get r k1 (JObj [])) as [o|e1] eqn:E; simpl; intros H.
  - eapply py_get_raises; eassumption.
  - inversion H; subst. eapply py_get_raises; eassumption.
Qed.

Lemma get3_raises r k1 k2 k3 : raises_only not_json_error (get3 r k1 k2 k3).
Proof.
  intros e. unfold get3.
  destruct (py_get r k1 (JObj [])) as [o|e1] eqn:E; simpl; intros H.
  - destruct (py_get o k2 (JObj [])) as [p|e2] eqn:E2; simpl in H.
    + eapply py_get_raises; eassumption.
    + inversion H; subst. eapply py_get_raises; eassumption.
  - inversion H; subst. eapply py_get_raises; eassumption.
Qed.

Lemma insert_params_raises r : raises_only not_json_error (insert_params r).
Proof.
  unfold insert_params. apply sequence_raises_only.
  repeat constructor;
    first [apply get1_raises | apply get2_raises | apply get3_raises].
Qed.

Lemma adapt_raises ps :
  raises_only not_json_error (sequence (map adapt ps)).
Proof.
  apply sequence_raises_only. apply Forall_map. apply Forall_forall.
  intros v _ e. destruct v; simpl; intros H; inversion H; reflexivity.
Qed.

Lemma engine_check_raises k cells :
  raises_only not_json_error (engine_check k cells).
Proof.
  intros e. unfold engine_check.
  destruct (hd PNone cells); destruct k;
    try destruct (all_fit column_types cells);
    intros H; inversion H; reflexivity.
Qed.

Lemma backend_call_raises w w' e :
  backend_call w = (w', Raise e) -> not_json_error e.
Proof.
  unfold backend_call. destruct (faults w) as [|[f|] fs]; intros H;
    inversion H; subst. destruct f; reflexivity.
Qed.

Lemma execute_query_raises {A} c (q : list row -> A) w w' e :
  execute_query c q w = (w', Raise e) -> not_json_error e.
Proof.
  unfold execute_query. intros H. apply bind_inv in H.
  destruct H as [(w1 & a & H1 & H2) | (e' & H1 & H2)].
  - inversion H2.
  - inversion H2; subst. eapply backend_call_raises; eassumption.
Qed.

Lemma connect_raises k w w' e :
  connect k w = (w', Raise e) -> not_json_error e.
Proof.
  unfold connect. intros H. apply bind_inv in H.
  destruct H as [(w1 & a & H1 & H2) | (e' & H1 & H2)].
  - inversion H2.
  - inversion H2; subst. eapply backend_call_raises; eassumption.
Qed.

Lemma get_db_connection_raises w w' e :
  get_db_connection w = (w', Raise e) -> not_json_error e.
Proof.
  unfold get_db_connection. destruct (env w) as [[url|]| |]; intros H.
  - unfold try_except in H.
    destruct (bind (connect Postgres) _ w) as [w1 [c1|e1]];
      inversion H; reflexivity.
  - inversion H; reflexivity.
  - eapply connect_raises; eassumption.
  - unfold try_except in H.
    destruct (connect Postgres w) as [w1 [c1|e1]] eqn:E; [discriminate H|].
    destruct (is_operational_error e1).
    + eapply connect_raises; eassumption.
    + inversion H; subst. eapply connect_raises; eassumption.
Qed.

Lemma execute_insert_raises c ps w w' e :
  execute_insert c ps w = (w', Raise e) -> not_json_error e.
Proof.
  unfold execute_insert. intros H.
  apply bind_inv in H. destruct H as [(w1 & cells & H1 & H) | (e1 & H1 & H2)].
  - apply bind_inv in H. destruct H as [(w2 & u & H2 & H) | (e2 & H2 & H3)].
    + apply bind_inv in H. destruct H as [(w3 & u' & H3 & H) | (e3 & H3 & H4)].
      * inversion H.
      * inversion H4; subst. apply lift_quiet in H3. destruct H3 as [_ H3].
        eapply engine_check_raises. symmetry. exact H3.
    + inversion H3; subst. eapply backend_call_raises; eassumption.
  - inversion H2; subst. apply lift_quiet in H1. destruct H1 as [_ H1].
    eapply adapt_raises. symmetry. exact H1.
Qed.

Lemma insert_records_raises data : forall c n w w' e,
  insert_records c n data w = (w', Raise e) -> not_json_error e.
Proof.
  induction data as [|record rest IH]; simpl; intros c n w w' e H.
  - inversion H.
  - apply bind_inv in H. destruct H as [(w1 & ps & H1 & H) | (e1 & H1 & H2)].
    + apply bind_inv in H. destruct H as [(w2 & c' & H2 & H) | (e2 & H2 & H3)].
      * eapply IH; eassumption.
      * inversion H3; subst. eapply execute_insert_raises; eassumption.
    + inversion H2; subst. apply lift_quiet in H1. destruct H1 as [_ H1].
      eapply insert_params_raises. symmetry. exact H1.
Qed.

(** A rejected record stops the loop, whatever follows it. *)
Lemma rejected_record_raises {B} c record (k : conn -> M B) w :
  rejected (kind c) record ->
  exists w' e,
    bind (lift (insert_params record))
         (fun params => bind (execute_insert c params) k) w
    = (w', Raise e).
Proof.
  intros [e0 H]. unfold prepare in H. unfold bind at 1, lift.
  destruct (insert_params record) as [ps|e1]; [|eauto].
  simpl in H. unfold bind at 1. unfold execute_insert.
  unfold bind at 1, lift.
  destruct (sequence (map adapt ps)) as [cells|e2]; [|eauto].
  simpl in H. unfold bind at 1.
  destruct (backend_call w) as [w1 [u|e3]]; [|eauto].
  unfold bind at 1.
  destruct (engine_check (kind c) cells) as [u'|e4]; [discriminate H|eauto].
Qed.

Lemma insert_records_rejected data : forall c n w,
  Exists (rejected (kind c)) data ->
  exists w' e, insert_records c n data w = (w', Raise e).
Proof.
  induction data as [|record rest IH]; intros c n w H.
  - inversion H.
  - simpl. inversion H as [x l Hx | x l Hl]; subst.
    + apply rejected_record_raises. exact Hx.
    + unfold bind at 1, lift.
      destruct (insert_params record) as [ps|e1]; [|eauto].
      unfold bind at 1.
      destruct (execute_insert c ps w) as [w1 [c'|e2]] eqn:E; [|eauto].
      apply execute_insert_kind in E. apply IH. rewrite E. exact Hl.
Qed.

Lemma get_db_connection_file_reads w :
  get_db_connection (bump_file_reads w)
  = (bump_file_reads (fst (get_db_connection w)), snd (get_db_connection w)).
Proof.
  unfold get_db_connection, try_except, connect, execute_query, bind,
    backend_call, raise, ret.
  simpl. destruct (env w) as [[url|]| |]; simpl;
    destruct (faults w) as [|[f|] [|[f'|] fs]] eqn:E; simpl;
    rewrite ?E; simpl; try reflexivity;
    repeat match goal with
           | x : fault |- _ => destruct x; simpl; rewrite ?E; try reflexivity
           end.
Qed.

Lemma conn_kind_file_reads w : conn_kind (bump_file_reads w) = conn_kind w.
Proof. unfold conn_kind. rewrite get_db_connection_file_reads. reflexivity. Qed.

(** C7: when the batch holds a record whose processing fails on the
    backend in use, the upload fails with status 500 and both tables are
    as they were: no row of the batch is written. *)
Theorem batch_insert_all_or_nothing :
  forall file records w,
    endswith (filename file) ".json" = true ->
    content file = Parsed (JArr records) ->
    (forall k, conn_kind w = Some k -> Exists (rejected k) records) ->
    exists w' detail,
      upload_session_data file w = (w', Raise (http_exception 500 detail))
      /\ same_tables w w'.
Proof.
  intros file records w Hname Hcontent Hrej.
  unfold upload_session_data. rewrite Hname.
  change (negb true) with false. cbv iota.
  unfold try_except, bind at 1, file_read. rewrite Hcontent.
  unfold bind at 1, lift, json_loads.
  unfold bind at 1.
  destruct (get_db_connection (bump_file_reads w)) as [w1 [c|e]] eqn:E.
  - assert (Hk : conn_kind w = Some (kind c)).
    { rewrite <- conn_kind_file_reads. unfold conn_kind. rewrite E. reflexivity. }
    apply get_db_connection_tables in E. destruct E as [E1 E2]. simpl in E1, E2.
    destruct (insert_records_rejected records c 0 w1 (Hrej _ Hk))
      as (w2 & e & Hloop).
    unfold bind at 1. rewrite Hloop.
    pose proof (insert_records_raises _ _ _ _ _ _ Hloop) as Hcls.
    apply insert_records_quiet in Hloop. destruct Hloop as (L1 & L2 & _).
    unfold not_json_error in Hcls. rewrite Hcls.
    eexists _, _. split; [reflexivity|]. split; congruence.
  - pose proof (get_db_connection_raises _ _ _ E) as Hcls.
    apply get_db_connection_tables in E. destruct E as [E1 E2]. simpl in E1, E2.
    unfold not_json_error in Hcls. rewrite Hcls.
    eexists _, _. split; [reflexivity|]. split; congruence.
Qed.

Lemma batch_insert_all_or_nothing_witness :
  exists w' detail,
    upload_session_data
      (mkFile "batch.json" (Parsed (JArr [sample_record; JStr "not a record"])))
      (quiet UseSqlite [sample_row])
    = (w', Raise (http_exception 500 detail))
    /\ same_tables (quiet UseSqlite [sample_row]) w'.
Proof.
  apply (batch_insert_all_or_nothing
           (mkFile "batch.json"
                   (Parsed (JArr [sample_record; JStr "not a record"])))
           [sample_record; JStr "not a record"]
           (quiet UseSqlite [sample_row])).
  - reflexivity.
  - reflexivity.
  - intros k _. apply Exists_cons_tl. apply Exists_cons_hd.
    eexists. reflexivity.
Defined.

(* ===================================================================== *)
(** * Counting distinct values *)
(* ===================================================================== *)

Lemma cell_eqb_eq a b : cell_eqb a b = true <-> a = b.
Proof.
  unfold cell_eqb. destruct (cell_eq_dec a b); split; congruence.
Qed.

Lemma existsb_cell_eqb c l : existsb (cell_eqb c) l = true <-> In c l.
Proof.
  rewrite existsb_exists. split.
  - intros (x & Hx & E). apply cell_eqb_eq in E. subst. exact Hx.
  - intros H. exists c. split; [exact H|]. apply cell_eqb_eq. reflexivity.
Qed.

Lemma In_dedup x l : In x (dedup l) <-> In x l.
Proof.
  induction l as [|c l IH]; simpl; [tauto|].
  destruct (existsb (cell_eqb c) l) eqn:E; simpl.
  - rewrite IH. apply existsb_cell_eqb in E. split; [tauto|].
    intros [->|H]; assumption.
  - rewrite IH. tauto.
Qed.

Lemma NoDup_dedup l : NoDup (dedup l).
Proof.
  induction l as [|c l IH]; simpl; [constructor|].
  destruct (existsb (cell_eqb c) l) eqn:E; [exact IH|].
  constructor; [|exact IH].
  rewrite In_dedup. intros H. apply existsb_cell_eqb in H. congruence.
Qed.


(* ===================================================================== *)
(** * Operations in a world without faults *)
(* ===================================================================== *)

Lemma backend_call_clear w : faults w = [] -> backend_call w = (w, Ok tt).
Proof. intros H. unfold backend_call. rewrite H. reflexivity. Qed.

Lemma connect_clear k w :
  faults w = [] -> connect k w = (bump_opened w, Ok (mkConn k [])).
Proof.
  intros H. unfold connect, bind. rewrite (backend_call_clear w H). reflexivity.
Qed.

Lemma execute_query_clear {A} c (q : list row -> A) w :
  faults w = [] -> execute_query c q w = (w, Ok (q (db_rows (view w c)))).
Proof.
  intros H. unfold execute_query, bind. rewrite (backend_call_clear w H).
  reflexivity.
Qed.

Lemma get_db_connection_clear w :
  faults w = [] -> env w <> Vercel None ->
  get_db_connection w = (bump_opened w, Ok (mkConn (home_backend (env w)) [])).
Proof.
  intros H He. unfold get_db_connection.
  destruct (env w) as [[url|]| |]; simpl.
  - unfold try_except, bind. rewrite (connect_clear _ w H).
    rewrite execute_query_clear by exact H. reflexivity.
  - congruence.
  - apply connect_clear. exact H.
  - unfold try_except. rewrite (connect_clear _ w H). reflexivity.
Qed.


Lemma well_formed_prepared k r :
  well_formed r = true ->
  insert_params r = Ok (map (leaf r) leaf_paths)
  /\ sequence (map adapt (map (leaf r) leaf_paths)) = Ok (stored_cells r)
  /\ engine_check k (stored_cells r) = Ok tt
  /\ negb (is_null (session_id_of r)) = true.
Proof.
  unfold well_formed. intros H.
  apply andb_prop in H. destruct H as [H Hfit].
  apply andb_prop in H. destruct H as [H Hsid].
  apply andb_prop in H. destruct H as [Hn Hs].
  split; [apply insert_params_leaves; exact Hn|].
  split.
  { apply adapt_scalars. unfold leaves_scalar in Hs.
    rewrite forallb_forall in *. intros v Hv.
    apply in_map_iff in Hv. destruct Hv as [p [<- Hp]]. exact (Hs p Hp). }
  unfold engine_check, session_id_of.
  change (hd PNone (stored_cells r)) with (to_cell (leaf r ["session_id"])).
  destruct (leaf r ["session_id"]); try discriminate Hsid.
  cbn [to_cell is_null negb].
  split; [|reflexivity].
  destruct k; [reflexivity|].
  unfold stored_cells. rewrite Hfit. reflexivity.
Qed.



Lemma fold_inserts t cs : forall d,
  fold_left apply_statement (map (fun c => Insert c t) cs) d
  = mkDb (db_rows d ++ new_rows (db_next_id d) t cs)
         (db_next_id d + Z.of_nat (length cs)).
Proof.
  induction cs as [|c rest IH]; intros d.
  - simpl. rewrite app_nil_r, Z.add_0_r. destruct d; reflexivity.
  - cbn [map fold_left]. rewrite IH. cbn [apply_statement db_rows db_next_id].
    rewrite <- app_assoc. cbn [app new_rows].
    replace (db_next_id d + 1 + Z.of_nat (length rest))
      with (db_next_id d + Z.of_nat (length (c :: rest)))
      by (cbn [length]; lia).
    reflexivity.
Qed.

Lemma length_new_rows next t cs : length (new_rows next t cs) = length cs.
Proof.
  revert next. induction cs as [|c rest IH]; intros next; simpl;
    [reflexivity | rewrite IH; reflexivity].
Qed.



Lemma view_fresh w k : view w (mkConn k []) = database_of w k.
Proof. reflexivity. Qed.



Lemma storable_well_formed records :
  forallb storable records = true -> forallb well_formed records = true.
Proof.
  induction records as [|r rest IH]; simpl; [reflexivity|].
  intros H. apply andb_prop in H. destruct H as [Hr Hrest].
  unfold storable in Hr. apply andb_prop in Hr. destruct Hr as [Hr _].
  rewrite Hr, (IH Hrest). reflexivity.
Qed.



(* ===================================================================== *)
(** * The emotion ranking *)
(* ===================================================================== *)

Lemma In_insert_by {A} (before : A -> A -> bool) x y l :
  In x (insert_by before y l) <-> y = x \/ In x l.
Proof.
  induction l as [|z l IH]; simpl.
  - tauto.
  - destruct (before z y); simpl; [rewrite IH|]; tauto.
Qed.

Lemma In_sort_by {A} (before : A -> A -> bool) x l :
  In x (sort_by before l) <-> In x l.
Proof.
  induction l as [|y l IH]; simpl; [tauto|].
  rewrite In_insert_by, IH. tauto.
Qed.

Lemma insert_by_count_sorted x l :
  Sorted count_desc l -> Sorted count_desc (insert_by count_before x l).
Proof.
  induction 1 as [|y l Hs IH Hd]; simpl.
  - repeat constructor.
  - unfold count_before at 1. destruct (Z.ltb_spec (snd x) (snd y)) as [L|L].
    + constructor; [exact IH|].
      destruct l as [|z l]; simpl.
      * constructor. unfold count_desc. lia.
      * destruct (count_before z x).
        -- constructor. inversion Hd; assumption.
        -- constructor. unfold count_desc. lia.
    + constructor; [constructor; assumption|].
      constructor. unfold count_desc. lia.
Qed.

Lemma sort_by_count_sorted l : Sorted count_desc (sort_by count_before l).
Proof.
  induction l as [|x l IH]; simpl; [constructor|].
  apply insert_by_count_sorted. exact IH.
Qed.

Lemma count_desc_trans a b c : count_desc a b -> count_desc b c -> count_desc a c.
Proof. unfold count_desc. lia. Qed.

Lemma In_firstn {A} (x : A) n : forall l, In x (firstn n l) -> In x l.
Proof.
  induction n as [|n IH]; intros l H; [contradiction|].
  destruct l as [|z l]; [contradiction|]. simpl in H.
  destruct H as [->|H]; [left; reflexivity|right; apply IH; exact H].
Qed.

Lemma StronglySorted_firstn {A} (R : A -> A -> Prop) n : forall l,
  StronglySorted R l -> StronglySorted R (firstn n l).
Proof.
  induction n as [|n IH]; intros l H; [constructor|].
  destruct H as [|x l Hs Hall]; simpl; [constructor|].
  constructor; [apply IH; exact Hs|].
  rewrite Forall_forall in *. intros y Hy. apply Hall.
  eapply In_firstn. exact Hy.
Qed.

Lemma add_count_named e gs :
  named_emotion (e, 1) -> Forall named_emotion gs ->
  Forall named_emotion (add_count e gs).
Proof.
  intros He. induction 1 as [|[e' n] gs Hg Hgs IH]; simpl.
  - constructor; [exact He|constructor].
  - destruct (cell_eqb e e'); constructor;
      solve [exact Hg | exact Hgs | exact IH].
Qed.

Lemma count_by_emotion_named rows : forall acc,
  Forall (fun r => has_emotion r = true) rows ->
  Forall named_emotion acc ->
  Forall named_emotion
         (fold_left (fun gs r => add_count (column r "user_emotion") gs)
                    rows acc).
Proof.
  induction rows as [|r rows IH]; intros acc Hr Hacc; simpl; [exact Hacc|].
  inversion Hr as [|x l Hx Hl]; subst.
  apply IH; [exact Hl|]. apply add_count_named; [|exact Hacc].
  unfold has_emotion in Hx. apply andb_prop in Hx. destruct Hx as [N E].
  unfold named_emotion. simpl. split.
  - intros C. rewrite C in N. discriminate N.
  - intros C. rewrite C in E. discriminate E.
Qed.

(** The ranking a stats query computes, on any table. *)
Lemma ranking_of_any_table rows :
  Forall named_emotion (select_top_emotions rows)
  /\ StronglySorted count_desc (select_top_emotions rows)
  /\ (length (select_top_emotions rows) <= 5)%nat.
Proof.
  unfold select_top_emotions. split; [|split].
  - apply Forall_forall. intros p Hp.
    apply In_firstn in Hp. apply In_sort_by in Hp.
    revert p Hp. apply Forall_forall.
    apply count_by_emotion_named; [|constructor].
    apply Forall_forall. intros r Hr. apply filter_In in Hr. tauto.
  - apply StronglySorted_firstn. apply Sorted_StronglySorted.
    + intros a b c. apply count_desc_trans.
    + apply sort_by_count_sorted.
  - apply firstn_le_length.
Qed.

(** C9: the [top_emotions] of a stats response hold no null and no
    empty-string emotion, are ordered by count, largest first, and are at
    most five. *)
Theorem top_emotions_ranked :
  forall w w' s,
    get_stats w = (w', Ok s) ->
    Forall named_emotion (top_emotions s)
    /\ StronglySorted count_desc (top_emotions s)
    /\ (length (top_emotions s) <= 5)%nat.
Proof.
  intros w w' s H. unfold get_stats in H.
  step H as w1 c S1. step H as w2 n2 S2. step H as w3 n3 S3.
  step H as w4 since S4. step H as w5 n5 S5. step H as w6 top S6.
  step H as w7 u7 S7. inversion H; subst. cbn [top_emotions].
  apply execute_query_value in S6. destruct S6 as (rows & ->).
  apply ranking_of_any_table.
Qed.

Lemma top_emotions_ranked_witness :
  Forall named_emotion (top_emotions sample_stats)
  /\ StronglySorted count_desc (top_emotions sample_stats)
  /\ (length (top_emotions sample_stats) <= 5)%nat.
Proof.
  apply (top_emotions_ranked
           (quiet UseSqlite [sample_row])
           (bump_closed (bump_opened (quiet UseSqlite [sample_row])))).
  reflexivity.
Defined.

(* ===================================================================== *)
(** * The created field on the two backends *)
(* ===================================================================== *)

(** C3: on the same table the SQLite branch of the listing answers the
    rewritten text of [created] and the PostgreSQL branch the value as
    fetched; for any group the first appends [Z] to a non-empty text and
    the second leaves the value as it came. *)
Theorem created_differs_between_backends :
  (exists w',
      get_sessions 100 0 (quiet UseSqlite [sample_row])
      = (w', Ok (mkSessions
                   [mkItem (PStr "s1") 1 (PStr "2024-01-01T12:30:00Z")]
                   1 false None None)))
  /\ (exists w',
        get_sessions 100 0 (quiet (Vercel (Some "postgres://db")) [sample_row])
        = (w', Ok (mkSessions
                     [mkItem (PStr "s1") 1 (PDatetime "2024-01-01 12:30:00")]
                     1 false None None)))
  /\ (forall g,
        created (format_created (fetch_item SQLite g))
        = if String.eqb (g_created g) ""
          then PStr ""
          else PStr (replace_space_T (g_created g) ++ "Z"))
  /\ (forall g, created (fetch_item Postgres g) = PDatetime (g_created g)).
Proof.
  split; [eexists; reflexivity|].
  split; [eexists; reflexivity|].
  split; [|reflexivity].
  intros g. unfold format_created, fetch_item.
  cbn [created fetch_created truthy].
  destruct (String.eqb_spec (g_created g) "") as [E|E].
  - cbn [negb created]. rewrite E. reflexivity.
  - reflexivity.
Qed.

(* ===================================================================== *)
(** * A small program logic for the endpoints *)
(* ===================================================================== *)

Section Post.
Variable R : world -> world -> Prop.
Hypothesis R_refl : forall w, R w w.
Hypothesis R_trans : forall a b c, R a b -> R b c -> R a c.

Lemma post_ret {A} (Q : A -> Prop) a : Q a -> post R Q (ret a).
Proof.
  intros Ha w w' r H. inversion H; subst. split; [apply R_refl|].
  intros a' E. inversion E; subst. exact Ha.
Qed.

Lemma post_raise {A} (Q : A -> Prop) e : post R Q (raise e).
Proof.
  intros w w' r H. inversion H; subst. split; [apply R_refl|].
  intros a' E. discriminate E.
Qed.

Lemma post_lift {A} (Q : A -> Prop) (x : result A) :
  (forall a, x = Ok a -> Q a) -> post R Q (lift x).
Proof.
  intros Hx w w' r H. inversion H; subst. split; [apply R_refl|exact Hx].
Qed.

Lemma post_bind {A B} (P : A -> Prop) (Q : B -> Prop) m (f : A -> M B) :
  post R P m -> (forall a, P a -> post R Q (f a)) -> post R Q (bind m f).
Proof.
  intros Hm Hf w w' r H. apply bind_inv in H.
  destruct H as [(w1 & a & H1 & H2) | (e & H1 & ->)].
  - destruct (Hm _ _ _ H1) as [R1 Pa].
    destruct (Hf a (Pa a eq_refl) _ _ _ H2) as [R2 Qb].
    split; [eapply R_trans; eassumption|exact Qb].
  - destruct (Hm _ _ _ H1) as [R1 _]. split; [exact R1|].
    intros b E. discriminate E.
Qed.

Lemma post_try {A} (Q : A -> Prop) m (h : exn -> M A) :
  post R Q m -> (forall e, post R Q (h e)) -> post R Q (try_except m h).
Proof.
  intros Hm Hh w w' r H. unfold try_except in H.
  destruct (m w) as [w1 [a|e]] eqn:E.
  - inversion H; subst. exact (Hm _ _ _ E).
  - destruct (Hm _ _ _ E) as [R1 _]. destruct (Hh e _ _ _ H) as [R2 Qa].
    split; [eapply R_trans; eassumption|exact Qa].
Qed.

Lemma post_weaken {A} (P Q : A -> Prop) m :
  (forall a, P a -> Q a) -> post R P m -> post R Q m.
Proof.
  intros HPQ Hm w w' r H. destruct (Hm _ _ _ H) as [R1 Pa].
  split; [exact R1|]. intros a E. apply HPQ. apply Pa. exact E.
Qed.

Lemma post_fst {A} (Q : A -> Prop) m w : post R Q m -> R w (fst (m w)).
Proof.
  intros Hm. destruct (m w) as [w' r] eqn:E. exact (proj1 (Hm _ _ _ E)).
Qed.

End Post.

Lemma same_tables_refl w : same_tables w w.
Proof. split; reflexivity. Qed.

Lemma same_tables_trans a b c :
  same_tables a b -> same_tables b c -> same_tables a c.
Proof. unfold same_tables. intros [? ?] [? ?]. split; congruence. Qed.

Lemma quiet_same_tables w w' : quiet_step w w' -> same_tables w w'.
Proof. intros (?&?&_). split; assumption. Qed.

Lemma execute_query_reads {A} c (q : list row -> A) :
  post same_tables any (execute_query c q).
Proof.
  intros w w' r H. split; [|intros; exact I].
  apply quiet_same_tables. eapply execute_query_quiet. exact H.
Qed.

Lemma execute_checked_reads {A} c (q : list row -> result A) :
  post same_tables any (execute_checked c q).
Proof.
  intros w w' r H. split; [|intros; exact I].
  apply quiet_same_tables. eapply execute_checked_quiet. exact H.
Qed.

Lemma get_db_connection_reads : post same_tables any get_db_connection.
Proof.
  intros w w' r H. split; [|intros; exact I].
  eapply get_db_connection_tables. exact H.
Qed.

Lemma close_reads c : post same_tables any (close c).
Proof.
  intros w w' r H. inversion H; subst. split; [|intros; exact I].
  split; reflexivity.
Qed.

Ltac reads :=
  repeat first
    [ apply get_db_connection_reads
    | apply execute_query_reads
    | apply execute_checked_reads
    | apply close_reads
    | apply (post_ret same_tables same_tables_refl); exact I
    | apply (post_raise same_tables same_tables_refl)
    | match goal with
      | |- post _ _ (if ?b then _ else _) => destruct b
      end
    | apply (post_try same_tables same_tables_trans); [|intros ?]
    | apply (post_bind same_tables same_tables_trans any);
      [|intros ? _] ].

Lemma list_sessions_reads limit offset :
  post same_tables any (list_sessions limit offset).
Proof. unfold list_sessions. reads. Qed.

Lemma get_sessions_reads limit offset :
  post same_tables any (get_sessions limit offset).
Proof.
  unfold get_sessions.
  apply (post_try same_tables same_tables_trans);
    [apply list_sessions_reads|].
  intros e. apply (post_ret same_tables same_tables_refl). exact I.
Qed.

Lemma get_session_by_id_reads session_id :
  post same_tables any (get_session_by_id session_id).
Proof. unfold get_session_by_id. reads. Qed.

Lemma download_reads session_id :
  post same_tables any (download_session_with_nested_structure session_id).
Proof. unfold download_session_with_nested_structure. reads. Qed.

Lemma get_stats_reads : post same_tables any get_stats.
Proof.
  unfold get_stats. reads.
  intros w w' r H. inversion H; subst.
  split; [apply same_tables_refl|intros; exact I].
Qed.

Lemma health_check_reads : post same_tables any health_check.
Proof. unfold health_check. reads. Qed.

(** X1: the five reading operations leave both tables as they were,
    whether they answer, fall back or raise, and whatever the backend
    does meanwhile. *)
Theorem queries_never_write :
  forall w limit offset session_id,
    same_tables w (fst (get_sessions limit offset w))
    /\ same_tables w (fst (get_session_by_id session_id w))
    /\ same_tables w (fst (download_session_with_nested_structure session_id w))
    /\ same_tables w (fst (get_stats w))
    /\ same_tables w (fst (health_check w)).
Proof.
  intros w limit offset session_id.
  repeat match goal with |- _ /\ _ => split end;
    eapply post_fst;
    first [ apply get_sessions_reads | apply get_session_by_id_reads
          | apply download_reads | apply get_stats_reads
          | apply health_check_reads ].
Qed.

(* ===================================================================== *)
(** * Clearing the store *)
(* ===================================================================== *)

Lemma list_sessions_clear limit offset w :
  faults w = [] -> env w <> Vercel None ->
  list_sessions limit offset w
  = match select_sessions (home_backend (env w)) limit offset (table w) with
    | Ok groups =>
        (bump_closed (bump_opened w),
         Ok (if count_distinct_sessions (table w) =? 0
             then no_sessions_response
             else mkSessions
                    (map (listed (home_backend (env w))) groups)
                    (count_distinct_sessions (table w))
                    (Z.of_nat (length groups) =? limit) None None))
    | Raise e => (bump_opened w, Raise e)
    end.
Proof.
  intros H He. unfold list_sessions.
  unfold bind at 1. rewrite (get_db_connection_clear w H He).
  assert (H1 : faults (bump_opened w) = []) by exact H.
  unfold table.
  destruct (home_backend (env w)) eqn:K; cbn [is_sqlite kind];
    unfold bind at 1; unfold bind at 1; unfold execute_checked;
    unfold bind at 1; rewrite execute_query_clear by exact H1;
    rewrite view_fresh; cbn [database_of bump_opened lite pg];
    unfold lift;
    match goal with
    | |- context [select_sessions ?k limit offset ?rows] =>
        destruct (select_sessions k limit offset rows) as [groups|e]
    end; try reflexivity;
    unfold bind at 1; rewrite execute_query_clear by exact H1;
    rewrite view_fresh; cbn [database_of bump_opened lite pg];
    unfold ret; unfold bind at 1; rewrite close_eq; cbn [fst snd];
    rewrite length_map;
    destruct (count_distinct_sessions _ =? 0); reflexivity.
Qed.




(** X3: when clearing raises, at the connection, at the DELETE or at the
    commit, both tables are as they were. *)
Theorem failed_clear_deletes_nothing :
  forall w w' e, clear_data w = (w', Raise e) -> same_tables w w'.
Proof.
  intros w w' e H. unfold clear_data in H.
  apply bind_inv in H. destruct H as [(w1 & c & H1 & H) | (e1 & H1 & _)];
    apply get_db_connection_tables in H1; [|exact H1].
  apply bind_inv in H. destruct H as [(w2 & c2 & H2 & H) | (e2 & H2 & _)];
    apply execute_delete_quiet in H2; apply quiet_same_tables in H2;
    [|eapply same_tables_trans; eassumption].
  apply bind_inv in H. destruct H as [(w3 & c3 & H3 & H) | (e3 & H3 & _)].
  - apply bind_inv in H. destruct H as [(w4 & u & H4 & H) | (e4 & H4 & _)].
    + inversion H.
    + rewrite close_eq in H4. inversion H4.
  - apply commit_raise in H3. apply quiet_same_tables in H3.
    eapply same_tables_trans; [eassumption|].
    eapply same_tables_trans; eassumption.
Qed.

Lemma failed_clear_deletes_nothing_witness :
  same_tables
    (faulty UseSqlite [sample_row]
            [None; None; Some (Operational "database is locked")])
    (set_faults (bump_opened (quiet UseSqlite [sample_row])) []).
Proof.
  apply (failed_clear_deletes_nothing
           (faulty UseSqlite [sample_row]
                   [None; None; Some (Operational "database is locked")])
           _ (mkExn OperationalError "database is locked")).
  reflexivity.
Defined.

(* ===================================================================== *)
(** * What an upload can do to the tables *)
(* ===================================================================== *)

Lemma appended_refl d : appended d d.
Proof. exists []. split; [symmetry; apply app_nil_r|constructor]. Qed.

Lemma appended_trans a b c : appended a b -> appended b c -> appended a c.
Proof.
  intros (x & Hx & Fx) (y & Hy & Fy). exists (x ++ y)%list. split.
  - rewrite Hy, Hx. symmetry. apply app_assoc.
  - apply Forall_app. split; assumption.
Qed.

Lemma grows_refl w : grows w w.
Proof. split; apply appended_refl. Qed.

Lemma grows_trans a b c : grows a b -> grows b c -> grows a c.
Proof.
  intros [? ?] [? ?]. split; eapply appended_trans; eassumption.
Qed.

Lemma same_tables_grows w w' : same_tables w w' -> grows w w'.
Proof.
  intros [P L]. split; [rewrite P|rewrite L]; apply appended_refl.
Qed.

Lemma keyed_row_hd id cells t :
  hd PNone cells <> PNone -> keyed_row (mkRow id cells t).
Proof.
  unfold keyed_row, column. destruct cells as [|c cells]; simpl; auto.
Qed.

Lemma fold_keyed ss : forall d,
  Forall keyed_insert ss -> appended d (fold_left apply_statement ss d).
Proof.
  induction ss as [|s ss IH]; intros d H; simpl; [apply appended_refl|].
  inversion H as [|x l Hs Hss]; subst.
  eapply appended_trans; [|apply IH; exact Hss].
  destruct s as [cells t|]; [|contradiction]. simpl in Hs.
  exists [mkRow (db_next_id d) cells t]. split; [reflexivity|].
  constructor; [apply keyed_row_hd; exact Hs|constructor].
Qed.

Lemma commit_grows c :
  keyed_inserts c -> post grows any (commit c).
Proof.
  intros Hc w w' r H. split; [|intros; exact I].
  unfold commit in H. apply bind_inv in H.
  destruct H as [(w1 & u & H1 & H2) | (e & H1 & _)];
    apply backend_call_quiet in H1; apply quiet_same_tables in H1.
  - inversion H2; subst. clear H2. destruct H1 as [P L].
    pose proof (fold_keyed (pending c) (database_of w1 (kind c)) Hc) as G.
    unfold view. destruct (kind c); simpl in *; split.
    + rewrite P. apply appended_refl.
    + rewrite <- L. exact G.
    + rewrite <- P. exact G.
    + rewrite L. apply appended_refl.
  - apply same_tables_grows. exact H1.
Qed.

Lemma engine_check_keyed k cells :
  engine_check k cells = Ok tt -> hd PNone cells <> PNone.
Proof.
  unfold engine_check. destruct (hd PNone cells); intros H; congruence.
Qed.

Lemma execute_insert_keyed c params :
  keyed_inserts c ->
  post same_tables (fun c' => keyed_inserts c' /\ kind c' = kind c)
       (execute_insert c params).
Proof.
  intros Hc w w' r H. split.
  - apply quiet_same_tables. eapply execute_insert_quiet. exact H.
  - intros c' ->. unfold execute_insert in H.
    apply bind_ok in H. destruct H as (w1 & cells & _ & H).
    apply bind_ok in H. destruct H as (w2 & u & _ & H).
    apply bind_ok in H. destruct H as (w3 & u' & H3 & H).
    apply lift_quiet in H3. destruct H3 as [_ H3]. destruct u'.
    inversion H; subst. split; [|reflexivity].
    unfold keyed_inserts. cbn [pending]. apply Forall_app.
    split; [exact Hc|]. constructor; [|constructor].
    simpl. eapply engine_check_keyed. symmetry. exact H3.
Qed.

Lemma insert_records_keyed data : forall c n,
  keyed_inserts c ->
  post same_tables (fun ca => keyed_inserts (fst ca))
       (insert_records c n data).
Proof.
  induction data as [|record rest IH]; intros c n Hc; simpl.
  - apply (post_ret same_tables same_tables_refl). exact Hc.
  - apply (post_bind same_tables same_tables_trans any).
    + apply (post_lift same_tables same_tables_refl). intros; exact I.
    + intros params _.
      apply (post_bind same_tables same_tables_trans
                       (fun c' => keyed_inserts c' /\ kind c' = kind c)).
      * apply execute_insert_keyed. exact Hc.
      * intros c' [Hc' _]. apply IH. exact Hc'.
Qed.

Lemma post_relax {A} (R R' : world -> world -> Prop) (Q : A -> Prop) m :
  (forall w w', R w w' -> R' w w') -> post R Q m -> post R' Q m.
Proof.
  intros HR Hm w w' r H. destruct (Hm _ _ _ H) as [R1 Qa].
  split; [apply HR; exact R1|exact Qa].
Qed.

Lemma get_db_connection_fresh :
  post same_tables keyed_inserts get_db_connection.
Proof.
  intros w w' r H. split; [eapply get_db_connection_tables; exact H|].
  intros c ->. apply get_db_connection_ok in H.
  destruct H as (_ & _ & _ & P). unfold keyed_inserts. rewrite P. constructor.
Qed.

Lemma upload_grows file : post grows any (upload_session_data file).
Proof.
  unfold upload_session_data.
  destruct (negb (endswith (filename file) ".json"));
    [apply (post_raise grows grows_refl)|].
  apply (post_try grows grows_trans).
  - apply (post_bind grows grows_trans any).
    { intros w w' r H. inversion H; subst.
      split; [apply same_tables_grows; split; reflexivity|intros; exact I]. }
    intros content0 _.
    apply (post_bind grows grows_trans any).
    { apply (post_lift grows grows_refl). intros; exact I. }
    intros data _. destruct data; try apply (post_raise grows grows_refl).
    apply (post_bind grows grows_trans keyed_inserts).
    { apply (post_relax same_tables grows _ _ same_tables_grows).
      apply get_db_connection_fresh. }
    intros c Hc.
    apply (post_bind grows grows_trans (fun ca => keyed_inserts (fst ca))).
    { apply (post_relax same_tables grows _ _ same_tables_grows).
      apply insert_records_keyed. exact Hc. }
    intros ca Hca.
    apply (post_bind grows grows_trans any).
    { apply commit_grows. exact Hca. }
    intros c1 _.
    apply (post_relax same_tables grows _ _ same_tables_grows).
    reads.
  - intros e. destruct (is_json_decode_error e);
      apply (post_raise grows grows_refl).
Qed.

(** X4: whatever the file holds and however the upload ends, each table
    afterwards is the table before followed by new rows, each with a
    [session_id]: an upload never deletes, reorders or alters a stored
    row. *)
Theorem upload_only_appends :
  forall file w, grows w (fst (upload_session_data file w)).
Proof. intros file w. eapply post_fst. apply upload_grows. Qed.

Lemma kept_refl w : kept_or_emptied w w.
Proof. split; left; reflexivity. Qed.

Lemma kept_trans a b c :
  kept_or_emptied a b -> kept_or_emptied b c -> kept_or_emptied a c.
Proof.
  intros [[P|P] [L|L]] [[P'|P'] [L'|L']]; split;
    first [left; congruence | right; congruence].
Qed.

Lemma same_tables_kept w w' : same_tables w w' -> kept_or_emptied w w'.
Proof. intros [P L]. split; left; congruence. Qed.

Lemma clear_data_kept : post kept_or_emptied any clear_data.
Proof.
  unfold clear_data.
  apply (post_bind kept_or_emptied kept_trans (fun c => pending c = [])).
  { intros w w' r H. split.
    - apply same_tables_kept. eapply get_db_connection_tables. exact H.
    - intros c ->. apply get_db_connection_ok in H. tauto. }
  intros c Hc.
  apply (post_bind kept_or_emptied kept_trans deletes_all).
  { intros w w' r H. split.
    - apply same_tables_kept. apply quiet_same_tables.
      eapply execute_delete_quiet. exact H.
    - intros c' ->. unfold execute_delete in H. apply bind_ok in H.
      destruct H as (w1 & u & _ & H). inversion H; subst.
      unfold deletes_all. cbn [pending]. rewrite Hc. reflexivity. }
  intros c2 Hc2.
  apply (post_bind kept_or_emptied kept_trans any).
  { intros w w' r H. split; [|intros; exact I].
    unfold commit in H. apply bind_inv in H.
    destruct H as [(w1 & u & H1 & H2) | (e & H1 & _)];
      apply backend_call_quiet in H1; apply quiet_same_tables in H1.
    - inversion H2; subst. clear H2. destruct H1 as [P L].
      unfold view, kept_or_emptied. rewrite Hc2.
      destruct (kind c2); simpl; split;
        first [left; congruence | right; reflexivity].
    - apply same_tables_kept. exact H1. }
  intros c3 _.
  apply (post_relax same_tables kept_or_emptied _ _ same_tables_kept).
  reads.
Qed.

(** X5: clearing leaves each table either as it was or empty, however it
    ends: it never removes some rows and keeps others. *)
Theorem clear_is_all_or_nothing :
  forall w, kept_or_emptied w (fst (clear_data w)).
Proof. intros w. eapply post_fst. apply clear_data_kept. Qed.

Lemma all_keyed_same w w' : same_tables w w' -> all_keyed w -> all_keyed w'.
Proof. intros [P L] [KP KL]. split; congruence. Qed.

Lemma all_keyed_grows w w' : grows w w' -> all_keyed w -> all_keyed w'.
Proof.
  intros [(x & Hx & Fx) (y & Hy & Fy)] [KP KL]. split.
  - rewrite Hx. apply Forall_app. split; assumption.
  - rewrite Hy. apply Forall_app. split; assumption.
Qed.

Lemma all_keyed_kept w w' : kept_or_emptied w w' -> all_keyed w -> all_keyed w'.
Proof.
  intros [[P|P] [L|L]] [KP KL]; split;
    first [rewrite P; assumption | rewrite L; assumption
          | rewrite P; constructor | rewrite L; constructor].
Qed.

(** X6: the NOT NULL constraint on [session_id] is an invariant of the
    store: if no stored row lacks its [session_id], none does after any
    of the seven operations, however the operation ends. *)
Theorem session_id_is_never_null :
  forall w file limit offset session_id,
    all_keyed w ->
    all_keyed (fst (upload_session_data file w))
    /\ all_keyed (fst (clear_data w))
    /\ all_keyed (fst (get_sessions limit offset w))
    /\ all_keyed (fst (get_session_by_id session_id w))
    /\ all_keyed (fst (download_session_with_nested_structure session_id w))
    /\ all_keyed (fst (get_stats w))
    /\ all_keyed (fst (health_check w)).
Proof.
  intros w file limit offset session_id K.
  repeat match goal with |- _ /\ _ => split end.
  - eapply all_keyed_grows; [|exact K]. eapply post_fst. apply upload_grows.
  - eapply all_keyed_kept; [|exact K]. eapply post_fst. apply clear_data_kept.
  - eapply all_keyed_same; [|exact K]. eapply post_fst. apply get_sessions_reads.
  - eapply all_keyed_same; [|exact K]. eapply post_fst.
    apply get_session_by_id_reads.
  - eapply all_keyed_same; [|exact K]. eapply post_fst. apply download_reads.
  - eapply all_keyed_same; [|exact K]. eapply post_fst. apply get_stats_reads.
  - eapply all_keyed_same; [|exact K]. eapply post_fst. apply health_check_reads.
Qed.

Lemma session_id_is_never_null_witness :
  all_keyed (fst (upload_session_data
                    (mkFile "batch.json" (Parsed (JArr [sample_record])))
                    (quiet UseSqlite [sample_row])))
  /\ all_keyed (fst (clear_data (quiet UseSqlite [sample_row])))
  /\ all_keyed (fst (get_sessions 10 0 (quiet UseSqlite [sample_row])))
  /\ all_keyed (fst (get_session_by_id "s1" (quiet UseSqlite [sample_row])))
  /\ all_keyed (fst (download_session_with_nested_structure
                       "s1" (quiet UseSqlite [sample_row])))
  /\ all_keyed (fst (get_stats (quiet UseSqlite [sample_row])))
  /\ all_keyed (fst (health_check (quiet UseSqlite [sample_row]))).
Proof.
  apply (session_id_is_never_null (quiet UseSqlite [sample_row])).
  split; repeat constructor; discriminate.
Defined.

(* ===================================================================== *)
(** * Uploads that fail before the store *)
(* ===================================================================== *)

(** X7: a [.json] file that is not JSON is answered 400; one that is not
    UTF-8, or whose JSON is not an array, is answered 500, the 400 raised
    for a non-array being caught by the [except Exception] clause of the
    same [try].  In the three cases the file is read once, no connection
    is opened and nothing else changes. *)
Theorem upload_failures_before_the_store :
  forall file w,
    endswith (filename file) ".json" = true ->
    (content file = NotJson ->
     upload_session_data file w
     = (bump_file_reads w, Raise (http_exception 400 "Invalid JSON format")))
    /\ (content file = NotUtf8 ->
        exists detail,
          upload_session_data file w
          = (bump_file_reads w, Raise (http_exception 500 detail)))
    /\ (forall data,
          content file = Parsed data ->
          (forall records, data <> JArr records) ->
          exists detail,
            upload_session_data file w
            = (bump_file_reads w, Raise (http_exception 500 detail))).
Proof.
  intros file w Hname. unfold upload_session_data. rewrite Hname.
  change (negb true) with false. cbv iota.
  unfold try_except, bind at 1, file_read.
  split; [|split].
  - intros ->. reflexivity.
  - intros ->. eexists. reflexivity.
  - intros data -> Hd.
    destruct data; try (eexists; reflexivity).
    exfalso. eapply Hd. reflexivity.
Qed.

Lemma upload_failures_before_the_store_witness :
  upload_session_data (mkFile "a.json" NotJson) (quiet UseSqlite [sample_row])
  = (bump_file_reads (quiet UseSqlite [sample_row]),
     Raise (http_exception 400 "Invalid JSON format"))
  /\ (exists detail,
        upload_session_data (mkFile "a.json" NotUtf8)
                            (quiet UseSqlite [sample_row])
        = (bump_file_reads (quiet UseSqlite [sample_row]),
           Raise (http_exception 500 detail)))
  /\ (exists detail,
        upload_session_data (mkFile "a.json" (Parsed sample_record))
                            (quiet UseSqlite [sample_row])
        = (bump_file_reads (quiet UseSqlite [sample_row]),
           Raise (http_exception 500 detail))).
Proof.
  split; [|split].
  - apply (upload_failures_before_the_store
             (mkFile "a.json" NotJson) (quiet UseSqlite [sample_row]));
      reflexivity.
  - apply (upload_failures_before_the_store
             (mkFile "a.json" NotUtf8) (quiet UseSqlite [sample_row]));
      reflexivity.
  - apply (proj2 (proj2 (upload_failures_before_the_store
             (mkFile "a.json" (Parsed sample_record))
             (quiet UseSqlite [sample_row]) eq_refl)) sample_record).
    + reflexivity.
    + discriminate.
Defined.

(* ===================================================================== *)
(** * When the column extraction raises *)
(* ===================================================================== *)

Lemma sequence_ok_all {A} (ms : list (result A)) xs :
  sequence ms = Ok xs -> forall m, In m ms -> exists x, m = Ok x.
Proof.
  revert xs. induction ms as [|m0 ms IH]; intros xs H m Hin; [contradiction|].
  simpl in H. destruct m0 as [x0|e0]; simpl in H; [|discriminate H].
  destruct (sequence ms) as [xs'|e'] eqn:E; simpl in H; [|discriminate H].
  destruct Hin as [<-|Hin]; [eauto|]. eapply IH; [reflexivity|exact Hin].
Qed.

Lemma get1_ok_object r k x : get1 r k = Ok x -> is_object r = true.
Proof. destruct r; simpl; intros H; try discriminate H; reflexivity. Qed.

Lemma get2_ok_object d k1 k2 x :
  get2 (JObj d) k1 k2 = Ok x -> object_or_absent (JObj d) [k1] = true.
Proof.
  unfold get2, object_or_absent. simpl.
  destruct (dict_get k1 d) as [v|]; [|reflexivity].
  destruct v; simpl; intros H; try discriminate H; reflexivity.
Qed.

Lemma get3_ok_object d k1 k2 k3 x :
  get3 (JObj d) k1 k2 k3 = Ok x ->
  object_or_absent (JObj d) [k1] = true
  /\ object_or_absent (JObj d) [k1; k2] = true.
Proof.
  unfold get3, object_or_absent. simpl.
  destruct (dict_get k1 d) as [v|]; [|auto].
  destruct v; simpl; intros H; try discriminate H.
  split; [reflexivity|].
  destruct (dict_get k2 fields) as [v|]; [|reflexivity].
  destruct v; simpl in *; try discriminate H; reflexivity.
Qed.

Lemma py_get_attribute_error o k d : raises_only attribute_error (py_get o k d).
Proof. intros e. destruct o; simpl; intros H; inversion H; reflexivity. Qed.

Lemma insert_params_attribute_error r :
  raises_only attribute_error (insert_params r).
Proof.
  unfold insert_params. apply sequence_raises_only.
  repeat constructor; intros e; unfold get1, get2, get3;
    repeat match goal with
           | |- context [py_get ?o ?k ?d] =>
               let E := fresh "E" in
               destruct (py_get o k d) as [?|?] eqn:E; simpl;
               [|intros H; inversion H; subst;
                 eapply py_get_attribute_error; eassumption]
           end;
    intros H; discriminate H.
Qed.

(** X8: the column extraction of a record succeeds exactly when the
    record is an object whose sub-objects, where present, are objects; in
    every other case it raises an [AttributeError]. *)
Theorem extraction_succeeds_iff_nested :
  forall r,
    ((exists params, insert_params r = Ok params) <-> nested_ok r = true)
    /\ (forall e, insert_params r = Raise e -> exn_cls e = AttributeError).
Proof.
  intros r. split; [split|].
  - intros [params H].
    pose proof (sequence_ok_all _ _ H) as All.
    assert (Hobj : is_object r = true).
    { destruct (All (get1 r "session_id")) as [x Hx]; [left; reflexivity|].
      eapply get1_ok_object. exact Hx. }
    destruct r; try discriminate Hobj.
    unfold nested_ok. simpl.
    destruct (All (get2 (JObj fields) "conversation_data" "speaker"))
      as [x1 H1]; [simpl; tauto|].
    destruct (All (get3 (JObj fields) "hmd_data" "position" "x"))
      as [x2 H2]; [simpl; tauto|].
    destruct (All (get3 (JObj fields) "hmd_data" "gaze_vector" "x"))
      as [x3 H3]; [simpl; tauto|].
    destruct (All (get3 (JObj fields) "controller_data" "r_position" "x"))
      as [x4 H4]; [simpl; tauto|].
    destruct (All (get3 (JObj fields) "controller_data" "l_position" "x"))
      as [x5 H5]; [simpl; tauto|].
    apply get2_ok_object in H1.
    apply get3_ok_object in H2. destruct H2 as [H2 H2'].
    apply get3_ok_object in H3. destruct H3 as [_ H3'].
    apply get3_ok_object in H4. destruct H4 as [H4 H4'].
    apply get3_ok_object in H5. destruct H5 as [_ H5'].
    rewrite H1, H2, H2', H3', H4, H4', H5'. reflexivity.
  - intros H. eexists. apply insert_params_leaves. exact H.
  - intros e H. eapply insert_params_attribute_error. exact H.
Qed.

Lemma extraction_succeeds_iff_nested_witness :
  (exists params, insert_params sample_record = Ok params)
  /\ exn_cls (no_attribute_get JNull) = AttributeError.
Proof.
  split.
  - apply (proj1 (extraction_succeeds_iff_nested sample_record)). reflexivity.
  - apply (proj2 (extraction_succeeds_iff_nested null_hmd_record)). reflexivity.
Defined.

(* ===================================================================== *)
(** * The export and the session query *)
(* ===================================================================== *)

Section SortedBy.
Variable A : Type.
Variable before : A -> A -> bool.
Hypothesis before_asym : forall a b, before a b = true -> before b a = false.

Lemma insert_by_sorted x l :
  Sorted (fun a b => before b a = false) l ->
  Sorted (fun a b => before b a = false) (insert_by before x l).
Proof.
  induction 1 as [|y l Hs IH Hd]; simpl.
  - repeat constructor.
  - destruct (before y x) eqn:E.
    + constructor; [exact IH|].
      destruct l as [|z l]; simpl.
      * constructor. apply before_asym. exact E.
      * destruct (before z x).
        -- constructor. inversion Hd; assumption.
        -- constructor. apply before_asym. exact E.
    + constructor; [constructor; assumption|].
      constructor. exact E.
Qed.

Lemma sort_by_sorted l :
  Sorted (fun a b => before b a = false) (sort_by before l).
Proof.
  induction l as [|x l IH]; simpl; [constructor|].
  apply insert_by_sorted. exact IH.
Qed.

Lemma length_insert_by x l :
  length (insert_by before x l) = S (length l).
Proof.
  induction l as [|y l IH]; simpl; [reflexivity|].
  destruct (before y x); simpl; [rewrite IH|]; reflexivity.
Qed.

Lemma length_sort_by l : length (sort_by before l) = length l.
Proof.
  induction l as [|x l IH]; simpl; [reflexivity|].
  rewrite length_insert_by, IH. reflexivity.
Qed.

Lemma Permutation_insert_by x l : Permutation (x :: l) (insert_by before x l).
Proof.
  induction l as [|y l IH]; simpl; [apply Permutation_refl|].
  destruct (before y x); [|apply Permutation_refl].
  eapply perm_trans; [apply perm_swap|]. apply perm_skip. exact IH.
Qed.

Lemma Permutation_sort_by l : Permutation l (sort_by before l).
Proof.
  induction l as [|x l IH]; simpl; [constructor|].
  eapply perm_trans; [apply perm_skip; exact IH|].
  apply Permutation_insert_by.
Qed.

End SortedBy.

Lemma ltb_asym s t : String.ltb s t = true -> String.ltb t s = false.
Proof.
  unfold String.ltb. rewrite (String.compare_antisym t s).
  destruct (String.compare s t); simpl; congruence.
Qed.

Lemma dict_get_app {V} k (l l' : list (string * V)) :
  dict_get k (l ++ l')
  = match dict_get k l with
    | Some v => Some v
    | None => dict_get k l'
    end.
Proof.
  induction l as [|[k0 v0] l IH]; simpl; [reflexivity|].
  destruct (String.eqb k k0); [reflexivity|exact IH].
Qed.

(** The data columns of a fetched row read as the stored cells. *)
Lemma record_field_column k r name :
  String.eqb name "id" = false ->
  String.eqb name "created_at" = false ->
  record_field (row_dict k r) name = column r name.
Proof.
  intros H1 H2. unfold record_field, column, row_dict.
  cbn [dict_get]. rewrite H1, dict_get_app.
  destruct (dict_get name (combine columns (row_cells r))); [reflexivity|].
  cbn [dict_get]. rewrite H2. reflexivity.
Qed.

(** X10: whenever the session query answers, the answer names the
    requested session and every record in it carries that [session_id]. *)
Theorem session_query_returns_the_session :
  forall session_id w w' sr,
    get_session_by_id session_id w = (w', Ok sr) ->
    sr_session_id sr = session_id
    /\ Forall (fun record => record_field record "session_id" = PStr session_id)
              (records sr).
Proof.
  intros session_id w w' sr H. unfold get_session_by_id in H.
  step H as w1 c S1. step H as w2 rs S2. step H as w3 u S3.
  inversion H; subst. cbn [sr_session_id records]. split; [reflexivity|].
  assert (Hrs : exists k rows,
             rs = map (row_dict k) (select_session k session_id rows)).
  { destruct (is_sqlite c); step S2 as w4 rows0 S4; inversion S2; subst;
      apply execute_query_value in S4; destruct S4 as (rows & ->); eauto. }
  destruct Hrs as (k & rows & ->).
  apply Forall_forall. intros record Hin.
  apply in_map_iff in Hin. destruct Hin as (r & <- & Hr).
  unfold select_session in Hr. apply In_sort_by in Hr.
  unfold rows_of_session in Hr. apply filter_In in Hr.
  destruct Hr as [_ Hr]. apply cell_eqb_eq in Hr.
  rewrite record_field_column by reflexivity. exact Hr.
Qed.

Lemma session_query_returns_the_session_witness :
  sr_session_id (mkSessionRecords "s1" [row_dict SQLite sample_row]) = "s1"
  /\ Forall (fun record => record_field record "session_id" = PStr "s1")
            (records (mkSessionRecords "s1" [row_dict SQLite sample_row])).
Proof.
  apply (session_query_returns_the_session
           "s1" (quiet UseSqlite [sample_row])
           (bump_closed (bump_opened (quiet UseSqlite [sample_row])))).
  reflexivity.
Defined.




(* ===================================================================== *)
(** * Which backend a connection reaches *)
(* ===================================================================== *)

(** X12: a connection that opens has an empty transaction, and its
    backend follows the environment: SQLite under USE_SQLITE, PostgreSQL
    under VERCEL, and in the default configuration PostgreSQL unless
    its connection attempt failed with an [OperationalError], the one
    case in which SQLite is used. *)
Theorem connection_follows_environment :
  forall w w' c,
    get_db_connection w = (w', Ok c) ->
    pending c = []
    /\ match env w with
       | UseSqlite => kind c = SQLite
       | Vercel _ => kind c = Postgres
       | LocalDefault =>
           kind c = Postgres
           \/ (kind c = SQLite
               /\ exists msg fs, faults w = Some (Operational msg) :: fs)
       end.
Proof.
  intros w w' c H. split; [apply get_db_connection_ok in H; tauto|].
  revert H. unfold get_db_connection, try_except, connect, execute_query,
    bind, backend_call, raise, ret.
  destruct (env w) as [[url|]| |]; simpl;
    destruct (faults w) as [|[f|] [|[f'|] fs]] eqn:E; simpl;
    rewrite ?E; simpl;
    repeat match goal with
           | x : fault |- _ => destruct x; simpl; rewrite ?E; simpl
           end;
    intros H; inversion H; subst; simpl; eauto.
Qed.

Lemma connection_follows_environment_witness :
  pending (mkConn SQLite []) = []
  /\ match env (faulty LocalDefault [sample_row]
                       [Some (Operational "connection refused")]) with
     | UseSqlite => kind (mkConn SQLite []) = SQLite
     | Vercel _ => kind (mkConn SQLite []) = Postgres
     | LocalDefault =>
         kind (mkConn SQLite []) = Postgres
         \/ (kind (mkConn SQLite []) = SQLite
             /\ exists msg fs,
                  faults (faulty LocalDefault [sample_row]
                                 [Some (Operational "connection refused")])
                  = Some (Operational msg) :: fs)
     end.
Proof.
  apply (connection_follows_environment
           (faulty LocalDefault [sample_row]
                   [Some (Operational "connection refused")])
           (bump_opened (quiet LocalDefault [sample_row]))).
  reflexivity.
Defined.

(** X13: under VERCEL every failure to connect is raised as a plain
    [Exception]; without POSTGRES_URL nothing is touched, and when the
    [SELECT 1] probe fails after the connection opened, that connection
    stays open. *)
Theorem vercel_connection_failures :
  forall w url,
    env w = Vercel url ->
    (forall w' e, get_db_connection w = (w', Raise e) -> exn_cls e = Exception)
    /\ (url = None ->
        get_db_connection w
        = (w, Raise (mkExn Exception
                           "POSTGRES_URL environment variable not set")))
    /\ (forall f fs,
          url <> None -> faults w = None :: Some f :: fs ->
          exists w' e,
            get_db_connection w = (w', Raise e)
            /\ opened w' = S (opened w) /\ closed w' = closed w).
Proof.
  intros w url He. unfold get_db_connection. rewrite He.
  split; [|split].
  - intros w' e. destruct url as [u|]; intros H.
    + unfold try_except in H.
      destruct (bind (connect Postgres) _ w) as [w1 [c1|e1]];
        inversion H; reflexivity.
    + inversion H; reflexivity.
  - intros ->. reflexivity.
  - intros f fs Hu Hf. destruct url as [u|]; [|congruence].
    unfold try_except, connect, execute_query, bind, backend_call, raise, ret.
    rewrite Hf. simpl. eexists _, _.
    split; [reflexivity|split; reflexivity].
Qed.

Lemma vercel_connection_failures_witness :
  get_db_connection (quiet (Vercel None) [sample_row])
  = (quiet (Vercel None) [sample_row],
     Raise (mkExn Exception "POSTGRES_URL environment variable not set"))
  /\ exists w' e,
       get_db_connection
         (faulty (Vercel (Some "postgres://db")) [sample_row]
                 [None; Some (Operational "server closed the connection")])
       = (w', Raise e)
       /\ opened w' = S (opened (faulty (Vercel (Some "postgres://db"))
                                        [sample_row]
                                        [None; Some (Operational
                                           "server closed the connection")]))
       /\ closed w' = closed (faulty (Vercel (Some "postgres://db"))
                                     [sample_row]
                                     [None; Some (Operational
                                        "server closed the connection")]).
Proof.
  split.
  - apply (proj1 (proj2 (vercel_connection_failures
                           (quiet (Vercel None) [sample_row]) None eq_refl))).
    reflexivity.
  - apply (proj2 (proj2 (vercel_connection_failures
                           (faulty (Vercel (Some "postgres://db")) [sample_row]
                                   [None; Some (Operational
                                      "server closed the connection")])
                           (Some "postgres://db") eq_refl))
                 (Operational "server closed the connection") []).
    + discriminate.
    + reflexivity.
Defined.

(* ===================================================================== *)
(** * What the counts of stats and health check are *)
(* ===================================================================== *)

Lemma execute_query_ok {A} c (q : list row -> A) w w' a :
  execute_query c q w = (w', Ok a) ->
  a = q (db_rows (view w c)) /\ quiet_step w w'.
Proof.
  intros H. split; [|eapply execute_query_quiet; exact H].
  unfold execute_query in H. apply bind_ok in H.
  destruct H as (w1 & u & H1 & H2). inversion H2; subst.
  apply backend_call_quiet in H1. destruct H1 as (P & L & _).
  unfold view. destruct (kind c); simpl; congruence.
Qed.

Lemma view_quiet w w' c : quiet_step w w' -> view w' c = view w c.
Proof.
  intros (P & L & _). unfold view. destruct (kind c); simpl; congruence.
Qed.

(** Whenever stats answers, its four numbers are queries of one table. *)
Lemma get_stats_of_one_table w w' s :
  get_stats w = (w', Ok s) ->
  exists rows since,
    s = mkStats (count_rows rows) (count_distinct_sessions rows)
                (select_recent since rows) (select_top_emotions rows).
Proof.
  unfold get_stats. intros H.
  step H as w1 c S1. step H as w2 n2 S2. step H as w3 n3 S3.
  step H as w4 since S4. inversion S4; subst; clear S4.
  step H as w5 n5 S5. step H as w6 n6 S6. step H as w7 u7 S7.
  inversion H; subst.
  apply execute_query_ok in S2. destruct S2 as [-> Q2].
  apply execute_query_ok in S3. destruct S3 as [-> Q3].
  apply execute_query_ok in S5. destruct S5 as [-> Q5].
  apply execute_query_ok in S6. destruct S6 as [-> Q6].
  exists (db_rows (view w1 c)), (day_ago w4).
  rewrite (view_quiet _ _ c Q2).
  rewrite (view_quiet _ _ c (quiet_step_trans _ _ _ Q2 Q3)).
  rewrite (view_quiet _ _ c
             (quiet_step_trans _ _ _ (quiet_step_trans _ _ _ Q2 Q3) Q5)).
  reflexivity.
Qed.

Lemma length_dedup_le l : (length (dedup l) <= length l)%nat.
Proof.
  induction l as [|c l IH]; simpl; [lia|].
  destruct (existsb (cell_eqb c) l); simpl; lia.
Qed.

Lemma count_distinct_le_rows rows :
  0 <= count_distinct_sessions rows <= count_rows rows.
Proof.
  unfold count_distinct_sessions, count_rows, session_ids.
  pose proof (length_dedup_le
                (filter (fun c => negb (is_null c))
                        (map (fun r => column r "session_id") rows))) as H1.
  pose proof (filter_length_le (fun c => negb (is_null c))
                (map (fun r => column r "session_id") rows)) as H2.
  rewrite length_map in H2. lia.
Qed.

Lemma add_count_sum e gs : sum_counts (add_count e gs) = sum_counts gs + 1.
Proof.
  induction gs as [|[e' n] gs IH]; simpl; [lia|].
  destruct (cell_eqb e e'); simpl; lia.
Qed.

Lemma add_count_positive e gs :
  Forall (fun g => 1 <= snd g) gs ->
  Forall (fun g => 1 <= snd g) (add_count e gs).
Proof.
  induction 1 as [|[e' n] gs Hg Hgs IH]; simpl.
  - constructor; [simpl; lia|constructor].
  - destruct (cell_eqb e e'); constructor; simpl in *;
      solve [lia | assumption].
Qed.

Lemma add_count_keys e gs :
  NoDup (map fst gs) ->
  NoDup (map fst (add_count e gs))
  /\ (forall x, In x (map fst (add_count e gs)) <-> e = x \/ In x (map fst gs)).
Proof.
  induction gs as [|[e' n] gs IH]; simpl; intros H.
  - split; [repeat constructor; auto|]. intros x. tauto.
  - inversion H as [|x l Hx Hl]; subst.
    destruct (cell_eqb e e') eqn:E; simpl.
    + apply cell_eqb_eq in E. subst. split; [exact H|]. intros x. tauto.
    + destruct (IH Hl) as [N I]. split.
      * constructor; [|exact N]. rewrite I. intros [Heq|Hin]; [|contradiction].
        apply cell_eqb_eq in Heq. congruence.
      * intros x. rewrite I. tauto.
Qed.

Lemma count_by_emotion_facts rows : forall acc,
  NoDup (map fst acc) -> Forall (fun g => 1 <= snd g) acc ->
  let out := fold_left (fun gs r => add_count (column r "user_emotion") gs)
                       rows acc in
  NoDup (map fst out)
  /\ Forall (fun g => 1 <= snd g) out
  /\ sum_counts out = sum_counts acc + Z.of_nat (length rows).
Proof.
  induction rows as [|r rows IH]; intros acc N P; simpl.
  - split; [exact N|]. split; [exact P|lia].
  - destruct (IH (add_count (column r "user_emotion") acc)
                 (proj1 (add_count_keys _ _ N))
                 (add_count_positive _ _ P)) as (N' & P' & S').
    split; [exact N'|]. split; [exact P'|].
    rewrite S', add_count_sum. lia.
Qed.

Lemma sum_counts_bound gs g :
  Forall (fun g => 1 <= snd g) gs -> In g gs -> snd g <= sum_counts gs.
Proof.
  induction 1 as [|g0 gs Hg Hgs IH]; intros Hin; [contradiction|].
  simpl. assert (0 <= sum_counts gs).
  { clear -Hgs. induction Hgs; simpl; lia. }
  destruct Hin as [->|Hin]; [lia|]. specialize (IH Hin). lia.
Qed.

Lemma NoDup_firstn {A} n (l : list A) : NoDup l -> NoDup (firstn n l).
Proof.
  intros H. rewrite <- (firstn_skipn n l) in H.
  eapply NoDup_app_remove_r. exact H.
Qed.

Lemma NoDup_skipn {A} n (l : list A) : NoDup l -> NoDup (skipn n l).
Proof.
  intros H. rewrite <- (firstn_skipn n l) in H.
  eapply NoDup_app_remove_l. exact H.
Qed.

(** X15: whenever stats answers, [unique_sessions] and
    [recent_records_24h] lie between 0 and [total_records], the emotions
    of [top_emotions] are pairwise different, and each of their counts
    lies between 1 and [total_records]. *)
Theorem stats_numbers_are_consistent :
  forall w w' s,
    get_stats w = (w', Ok s) ->
    0 <= unique_sessions s <= total_records s
    /\ 0 <= recent_records_24h s <= total_records s
    /\ NoDup (map fst (top_emotions s))
    /\ Forall (fun g => 1 <= snd g <= total_records s) (top_emotions s).
Proof.
  intros w w' s H. apply get_stats_of_one_table in H.
  destruct H as (rows & since & ->).
  cbn [total_records unique_sessions recent_records_24h top_emotions].
  split; [apply count_distinct_le_rows|].
  split.
  { unfold select_recent, count_rows.
    pose proof (filter_length_le
                  (fun r => String.leb since (row_created_at r)) rows). lia. }
  unfold select_top_emotions.
  destruct (count_by_emotion_facts (filter has_emotion rows) []
              (NoDup_nil _) (Forall_nil _)) as (N & P & S).
  fold (count_by_emotion (filter has_emotion rows)) in N, P, S.
  split.
  - rewrite <- firstn_map. apply NoDup_firstn.
    eapply Permutation_NoDup; [|exact N].
    apply Permutation_map. apply Permutation_sort_by.
  - apply Forall_forall. intros g Hg.
    apply In_firstn in Hg. apply In_sort_by in Hg.
    split; [exact (proj1 (Forall_forall _ _) P g Hg)|].
    pose proof (sum_counts_bound _ _ P Hg) as B.
    simpl in S. unfold count_rows.
    pose proof (filter_length_le has_emotion rows). lia.
Qed.

Lemma stats_numbers_are_consistent_witness :
  0 <= unique_sessions sample_stats <= total_records sample_stats
  /\ 0 <= recent_records_24h sample_stats <= total_records sample_stats
  /\ NoDup (map fst (top_emotions sample_stats))
  /\ Forall (fun g => 1 <= snd g <= total_records sample_stats)
            (top_emotions sample_stats).
Proof.
  apply (stats_numbers_are_consistent
           (quiet UseSqlite [sample_row])
           (bump_closed (bump_opened (quiet UseSqlite [sample_row])))).
  reflexivity.
Defined.

(** X16: the health check never raises.  When the connection cannot be
    opened it answers unhealthy with the description of that failure, and
    when it answers healthy its session count lies between 0 and its
    record count. *)
Theorem health_check_always_answers :
  forall w,
    (exists w' h,
        health_check w = (w', Ok h)
        /\ match h with
           | Healthy records sessions => 0 <= sessions <= records
           | Unhealthy _ => True
           end)
    /\ (forall w1 e,
          get_db_connection w = (w1, Raise e) ->
          health_check w = (w1, Ok (Unhealthy (error_description e)))).
Proof.
  intros w. split.
  - unfold health_check, try_except.
    match goal with
    | |- context [match ?body w with _ => _ end] =>
        destruct (body w) as [w0 [h|e]] eqn:E
    end; [|eexists _, _; split; [reflexivity|exact I]].
    exists w0, h. split; [reflexivity|].
    step E as w1 c S1. step E as w2 n2 S2. step E as w3 n3 S3.
    step E as w4 n4 S4. step E as w5 u5 S5. inversion E; subst.
    apply execute_query_ok in S2. destruct S2 as [_ Q2].
    apply execute_query_ok in S3. destruct S3 as [-> Q3].
    apply execute_query_ok in S4. destruct S4 as [-> Q4].
    rewrite (view_quiet _ _ c Q3). apply count_distinct_le_rows.
  - intros w1 e H. unfold health_check, try_except, bind at 1.
    rewrite H. reflexivity.
Qed.

Lemma health_check_always_answers_witness :
  health_check (faulty UseSqlite [sample_row]
                       [Some (Operational "unable to open database file")])
  = (quiet UseSqlite [sample_row],
     Ok (Unhealthy (error_description
                      (mkExn OperationalError "unable to open database file")))).
Proof.
  apply (proj2 (health_check_always_answers
                  (faulty UseSqlite [sample_row]
                          [Some (Operational "unable to open database file")]))).
  reflexivity.
Defined.



(* ===================================================================== *)
(** * The session listing *)
(* ===================================================================== *)

Lemma add_to_groups_keys sid created gs :
  NoDup (map g_session_id gs) ->
  NoDup (map g_session_id (add_to_groups sid created gs))
  /\ (forall x, In x (map g_session_id (add_to_groups sid created gs))
                <-> sid = x \/ In x (map g_session_id gs)).
Proof.
  induction gs as [|g gs IH]; simpl; intros H.
  - split; [repeat constructor; auto|]. intros x. tauto.
  - inversion H as [|x l Hx Hl]; subst.
    destruct (cell_eqb sid (g_session_id g)) eqn:E; simpl.
    + apply cell_eqb_eq in E. rewrite E. split; [exact H|]. intros x. tauto.
    + destruct (IH Hl) as [N I]. split.
      * constructor; [|exact N]. rewrite I. intros [Heq|Hin]; [|contradiction].
        apply cell_eqb_eq in Heq. congruence.
      * intros x. rewrite I. tauto.
Qed.

Lemma add_to_groups_positive sid created gs :
  Forall (fun g => 1 <= g_records g) gs ->
  Forall (fun g => 1 <= g_records g) (add_to_groups sid created gs).
Proof.
  induction 1 as [|g gs Hg Hgs IH]; simpl.
  - constructor; [simpl; lia|constructor].
  - destruct (cell_eqb sid (g_session_id g)); constructor; simpl;
      solve [lia | assumption].
Qed.

Lemma group_sessions_facts rows : forall acc,
  NoDup (map g_session_id acc) -> Forall (fun g => 1 <= g_records g) acc ->
  let out :=
    fold_left (fun gs r => add_to_groups (column r "session_id")
                                         (row_created_at r) gs)
              rows acc in
  NoDup (map g_session_id out)
  /\ Forall (fun g => 1 <= g_records g) out
  /\ (forall x, In x (map g_session_id out)
                <-> In x (map g_session_id acc)
                    \/ In x (map (fun r => column r "session_id") rows)).
Proof.
  induction rows as [|r rows IH]; intros acc N P; simpl.
  - split; [exact N|]. split; [exact P|]. intros x. tauto.
  - destruct (add_to_groups_keys (column r "session_id") (row_created_at r)
                                 acc N) as [N1 I1].
    destruct (IH _ N1 (add_to_groups_positive _ _ _ P)) as (N' & P' & I').
    split; [exact N'|]. split; [exact P'|].
    intros x. rewrite I', I1. tauto.
Qed.

Lemma Sorted_skipn {A} (R : A -> A -> Prop) n : forall l,
  Sorted R l -> Sorted R (skipn n l).
Proof.
  induction n as [|n IH]; intros l H; [exact H|].
  destruct H as [|x l Hs Hd]; simpl; [constructor|]. apply IH. exact Hs.
Qed.

Lemma Sorted_firstn {A} (R : A -> A -> Prop) n : forall l,
  Sorted R l -> Sorted R (firstn n l).
Proof.
  induction n as [|n IH]; intros l H; [constructor|].
  destruct H as [|x l Hs Hd]; simpl; [constructor|].
  constructor; [apply IH; exact Hs|].
  destruct Hd as [|y l Hxy]; [destruct n; constructor|].
  destruct n; simpl; constructor. exact Hxy.
Qed.

(** A page is a stretch of the ordered list. *)
Lemma limit_offset_stretch {A} k limit offset (l l' : list A) :
  limit_offset k limit offset l = Ok l' ->
  (exists a b, l' = firstn a (skipn b l))
  /\ (0 <= limit -> Z.of_nat (length l') <= limit).
Proof.
  unfold limit_offset. destruct k.
  - intros H. inversion H; subst. clear H.
    destruct (Z.ltb_spec limit 0) as [L|L].
    + split; [|lia].
      exists (length (skipn (Z.to_nat offset) l)), (Z.to_nat offset).
      symmetry. apply firstn_all.
    + split; [eauto|]. intros _.
      pose proof (firstn_le_length (Z.to_nat limit)
                                   (skipn (Z.to_nat offset) l)). lia.
  - destruct (Z.ltb_spec limit 0) as [L|L]; simpl; [discriminate|].
    destruct (offset <? 0); simpl; [discriminate|].
    intros H. inversion H; subst. split; [eauto|]. intros _.
    pose proof (firstn_le_length (Z.to_nat limit)
                                 (skipn (Z.to_nat offset) l)). lia.
Qed.

Lemma execute_checked_value {A} c (q : list row -> result A) w w' a :
  execute_checked c q w = (w', Ok a) -> exists rows, q rows = Ok a.
Proof.
  unfold execute_checked. intros H. apply bind_ok in H.
  destruct H as (w1 & r & H1 & H2).
  apply execute_query_value in H1. destruct H1 as (rows & ->).
  inversion H2; subst. eauto.
Qed.

Lemma listed_session_id k g : si_session_id (listed k g) = g_session_id g.
Proof.
  destruct k; [|reflexivity]. unfold listed, format_created.
  destruct (truthy (created (fetch_item SQLite g))); [|reflexivity].
  destruct (created (fetch_item SQLite g)); reflexivity.
Qed.

Lemma listed_records k g : si_records (listed k g) = g_records g.
Proof.
  destruct k; [|reflexivity]. unfold listed, format_created.
  destruct (truthy (created (fetch_item SQLite g))); [|reflexivity].
  destruct (created (fetch_item SQLite g)); reflexivity.
Qed.

(** X18: whenever the listing answers, no session appears twice in the
    page, every item counts at least one record, the page has at most
    [limit] items for a non-negative [limit], and the items list groups
    that are in non-increasing order of their earliest [created_at]. *)
Theorem listing_page_is_well_formed :
  forall limit offset w w' resp,
    get_sessions limit offset w = (w', Ok resp) ->
    NoDup (map si_session_id (items resp))
    /\ Forall (fun item => 1 <= si_records item) (items resp)
    /\ (0 <= limit -> Z.of_nat (length (items resp)) <= limit)
    /\ exists k groups,
         items resp = map (listed k) groups /\ Sorted created_desc groups.
Proof.
  intros limit offset w w' resp H.
  unfold get_sessions, try_except in H.
  destruct (list_sessions limit offset w) as [w0 [r|e]] eqn:E.
  2:{ inversion H; subst. simpl.
      split; [constructor|]. split; [constructor|]. split; [lia|].
      exists SQLite, []. split; [reflexivity|constructor]. }
  inversion H; subst. clear H. unfold list_sessions in E.
  step E as w1 c S1. step E as w2 st S2. step E as w3 u S3.
  assert (Hst : exists k rows groups,
             select_sessions k limit offset rows = Ok groups
             /\ fst st = map (listed k) groups).
  { destruct (is_sqlite c); step S2 as w4 groups S4;
      step S2 as w5 t S5; inversion S2; subst;
      apply execute_checked_value in S4; destruct S4 as (rows & S4).
    - exists SQLite, rows, groups. split; [exact S4|reflexivity].
    - exists Postgres, rows, groups. split; [exact S4|reflexivity]. }
  destruct Hst as (k & rows & groups & Hsel & Hfst).
  destruct (snd st =? 0).
  { inversion E; subst. simpl.
    split; [constructor|]. split; [constructor|]. split; [lia|].
    exists SQLite, []. split; [reflexivity|constructor]. }
  inversion E; subst. cbn [items]. rewrite Hfst.
  unfold select_sessions in Hsel.
  apply limit_offset_stretch in Hsel. destruct Hsel as [(a & b & ->) Hlen].
  destruct (group_sessions_facts rows [] (NoDup_nil _) (Forall_nil _))
    as (N & P & _).
  fold (group_sessions rows) in N, P.
  split; [|split; [|split]].
  - rewrite map_map.
    rewrite (map_ext _ g_session_id (listed_session_id k)).
    rewrite <- firstn_map, <- skipn_map.
    apply NoDup_firstn, NoDup_skipn.
    eapply Permutation_NoDup; [|exact N].
    apply Permutation_map. apply Permutation_sort_by.
  - apply Forall_forall. intros item Hin.
    apply in_map_iff in Hin. destruct Hin as (g & <- & Hg).
    rewrite listed_records.
    apply In_firstn in Hg.
    assert (Hg' : In g (sort_by created_before (group_sessions rows))).
    { rewrite <- (firstn_skipn b). apply in_or_app. right. exact Hg. }
    apply In_sort_by in Hg'.
    exact (proj1 (Forall_forall _ _) P g Hg').
  - rewrite length_map. exact Hlen.
  - exists k. eexists. split; [reflexivity|].
    apply Sorted_firstn, Sorted_skipn.
    apply (sort_by_sorted _ created_before).
    intros x y. unfold created_before. apply ltb_asym.
Qed.

Lemma listing_page_is_well_formed_witness :
  NoDup (map si_session_id
             [mkItem (PStr "s1") 1 (PStr "2024-01-01T12:30:00Z")])
  /\ Forall (fun item => 1 <= si_records item)
            [mkItem (PStr "s1") 1 (PStr "2024-01-01T12:30:00Z")]
  /\ (0 <= 10 ->
      Z.of_nat (length [mkItem (PStr "s1") 1 (PStr "2024-01-01T12:30:00Z")])
      <= 10)
  /\ exists k groups,
       [mkItem (PStr "s1") 1 (PStr "2024-01-01T12:30:00Z")]
       = map (listed k) groups
       /\ Sorted created_desc groups.
Proof.
  apply (listing_page_is_well_formed
           10 0 (quiet UseSqlite [sample_row])
           (bump_closed (bump_opened (quiet UseSqlite [sample_row])))
           (mkSessions [mkItem (PStr "s1") 1 (PStr "2024-01-01T12:30:00Z")]
                       1 false None None)).
  reflexivity.
Defined.


Lemma select_sessions_nonneg k limit offset rows :
  0 <= limit -> 0 <= offset ->
  select_sessions k limit offset rows
  = Ok (firstn (Z.to_nat limit)
               (skipn (Z.to_nat offset)
                      (sort_by created_before (group_sessions rows)))).
Proof.
  intros Hl Ho. unfold select_sessions, limit_offset.
  replace (limit <? 0) with false by (symmetry; apply Z.ltb_ge; exact Hl).
  replace (offset <? 0) with false by (symmetry; apply Z.ltb_ge; exact Ho).
  destruct k; reflexivity.
Qed.



Lemma session_ids_keyed rows :
  Forall keyed_row rows ->
  session_ids rows = map (fun r => column r "session_id") rows.
Proof.
  unfold session_ids. induction 1 as [|r rows Hr _ IH]; [reflexivity|].
  simpl. unfold keyed_row in Hr.
  destruct (column r "session_id") eqn:E; try congruence; simpl;
    rewrite IH; reflexivity.
Qed.

Lemma groups_count_sessions rows :
  Forall keyed_row rows ->
  Z.of_nat (length (group_sessions rows)) = count_distinct_sessions rows.
Proof.
  intros K. unfold count_distinct_sessions. f_equal.
  destruct (group_sessions_facts rows [] (NoDup_nil _) (Forall_nil _))
    as (N & _ & I).
  fold (group_sessions rows) in N, I.
  rewrite <- (length_map g_session_id). apply Permutation_length.
  apply NoDup_Permutation; [exact N|apply NoDup_dedup|].
  intros x. rewrite I, In_dedup, (session_ids_keyed rows K). simpl. tauto.
Qed.

(** X20: [has_more] reports page-size equality, not a next page: in a
    world without faults whose stored rows all have a [session_id], asking
    for exactly as many sessions as there are answers [has_more = true],
    and the page after it is empty. *)
Theorem has_more_without_a_next_page :
  forall w,
    faults w = [] -> env w <> Vercel None ->
    Forall keyed_row (table w) ->
    count_distinct_sessions (table w) <> 0 ->
    exists p1 p2,
      snd (get_sessions (count_distinct_sessions (table w)) 0 w) = Ok p1
      /\ has_more p1 = true
      /\ snd (get_sessions (count_distinct_sessions (table w))
                           (count_distinct_sessions (table w)) w) = Ok p2
      /\ items p2 = [].
Proof.
  intros w H He K Hn.
  pose proof (groups_count_sessions (table w) K) as G.
  pose proof (count_distinct_le_rows (table w)) as B.
  set (n := count_distinct_sessions (table w)) in *.
  unfold get_sessions, try_except.
  rewrite !(list_sessions_clear _ _ w H He).
  rewrite !select_sessions_nonneg by lia. cbn [snd]. fold n.
  destruct (Z.eqb_spec n 0) as [E|_]; [contradiction|].
  assert (L : length (sort_by created_before (group_sessions (table w)))
              = Z.to_nat n).
  { rewrite length_sort_by. lia. }
  eexists _, _. split; [reflexivity|]. cbn [has_more items].
  split; [|split; [reflexivity|]].
  - change (Z.to_nat 0) with 0%nat. cbn [skipn].
    rewrite firstn_all2 by lia. rewrite L. apply Z.eqb_eq. lia.
  - rewrite skipn_all2 by lia. rewrite firstn_nil. reflexivity.
Qed.

Lemma has_more_without_a_next_page_witness :
  exists p1 p2,
    snd (get_sessions
           (count_distinct_sessions (table (quiet UseSqlite [sample_row]))) 0
           (quiet UseSqlite [sample_row])) = Ok p1
    /\ has_more p1 = true
    /\ snd (get_sessions
              (count_distinct_sessions (table (quiet UseSqlite [sample_row])))
              (count_distinct_sessions (table (quiet UseSqlite [sample_row])))
              (quiet UseSqlite [sample_row])) = Ok p2
    /\ items p2 = [].
Proof.
  apply (has_more_without_a_next_page (quiet UseSqlite [sample_row])).
  - reflexivity.
  - discriminate.
  - repeat constructor. discriminate.
  - discriminate.
Defined.

(* ===================================================================== *)
(** * An upload that fails after its commit *)
(* ===================================================================== *)

Lemma backend_call_none w fs :
  faults w = None :: fs -> backend_call w = (set_faults w fs, Ok tt).
Proof. intros H. unfold backend_call. rewrite H. reflexivity. Qed.

Lemma insert_records_spared data : forall c n w fs,
  faults w = (repeat None (length data) ++ fs)%list ->
  forallb well_formed data = true ->
  insert_records c n data w
  = (set_faults w fs,
     Ok (mkConn (kind c)
                (pending c
                   ++ map (fun r => Insert (stored_cells r) (now w)) data),
         n + Z.of_nat (length data))).
Proof.
  induction data as [|r rest IH]; intros c n w fs H Hd.
  - simpl in *. rewrite app_nil_r, Z.add_0_r.
    destruct c, w; simpl in *; subst; reflexivity.
  - simpl in Hd. apply andb_prop in Hd. destruct Hd as [Hr Hrest].
    destruct (well_formed_prepared (kind c) r Hr) as (Hp & Ha & He & _).
    cbn [insert_records]. unfold bind at 1, lift. rewrite Hp.
    unfold bind at 1. unfold execute_insert. unfold bind at 1, lift.
    rewrite Ha. unfold bind at 1.
    cbn [length repeat app] in H. rewrite (backend_call_none w _ H).
    unfold bind at 1. rewrite He.
    rewrite (IH _ _ (set_faults w (repeat None (length rest) ++ fs)) fs
               eq_refl Hrest).
    cbn [kind pending map set_faults now].
    rewrite <- app_assoc. cbn [app].
    replace (n + 1 + Z.of_nat (length rest))
      with (n + Z.of_nat (length (r :: rest)))
      by (cbn [length]; lia).
    reflexivity.
Qed.

(** X22: the session count of an upload is read on a second connection,
    after the commit.  Under USE_SQLITE, when every call up to the commit
    succeeds and that second connection fails, the upload of a batch of
    well-formed records of safe values is answered 500 although the
    table has grown by one row for each record of the batch. *)
Theorem upload_can_fail_after_commit :
  forall file records w f,
    endswith (filename file) ".json" = true ->
    content file = Parsed (JArr records) ->
    forallb storable records = true ->
    env w = UseSqlite ->
    faults w = (None :: repeat None (length records) ++ [None; Some f])%list ->
    exists w' detail,
      upload_session_data file w = (w', Raise (http_exception 500 detail))
      /\ length (db_rows (lite w'))
         = (length (db_rows (lite w)) + length records)%nat
      /\ opened w' = S (opened w) /\ closed w' = S (closed w).
Proof.
  intros file records w f Hname Hcontent Hst He Hf.
  pose proof (storable_well_formed records Hst) as Hwf.
  unfold upload_session_data. rewrite Hname.
  change (negb true) with false. cbv iota.
  unfold try_except, bind at 1, file_read. rewrite Hcontent.
  unfold bind at 1, lift, json_loads.
  unfold bind at 1.
  set (fs := (repeat None (length records) ++ [None; Some f])%list) in *.
  assert (G : get_db_connection (bump_file_reads w)
              = (bump_opened (set_faults (bump_file_reads w) fs),
                 Ok (mkConn SQLite []))).
  { unfold get_db_connection, connect, bind, backend_call.
    cbn [env bump_file_reads faults]. rewrite He, Hf. reflexivity. }
  rewrite G.
  set (w2 := bump_opened (set_faults (bump_file_reads w) fs)).
  unfold bind at 1.
  rewrite (insert_records_spared records _ 0 w2 [None; Some f] eq_refl Hwf).
  cbn [fst snd kind pending app].
  set (w3 := set_faults w2 [None; Some f]).
  unfold bind at 1. unfold commit. unfold bind at 1.
  rewrite (backend_call_none w3 [Some f] eq_refl).
  cbn [kind]. unfold bind at 1. rewrite close_eq.
  unfold bind at 1.
  match goal with
  | |- context [get_db_connection ?w4] =>
      assert (G4 : get_db_connection w4
                   = (set_faults w4 [], Raise (exn_of_fault f)))
  end.
  { unfold get_db_connection, connect, bind, backend_call.
    cbn. rewrite He. reflexivity. }
  rewrite G4.
  replace (is_json_decode_error (exn_of_fault f)) with false
    by (destruct f; reflexivity).
  eexists _, _. split; [reflexivity|].
  cbn. unfold view. cbn.
  rewrite <- (map_map stored_cells (fun c => Insert c (now w))).
  rewrite fold_inserts. cbn.
  rewrite length_app, length_new_rows, length_map. auto.
Qed.

Lemma upload_can_fail_after_commit_witness :
  exists w' detail,
    upload_session_data
      (mkFile "batch.json" (Parsed (JArr [sample_record; second_record])))
      (faulty UseSqlite [sample_row]
              [None; None; None; None; Some (Database "database is locked")])
    = (w', Raise (http_exception 500 detail))
    /\ length (db_rows (lite w')) = 3%nat
    /\ opened w' = 1%nat /\ closed w' = 1%nat.
Proof.
  apply (upload_can_fail_after_commit
           (mkFile "batch.json" (Parsed (JArr [sample_record; second_record])))
           [sample_record; second_record]
           (faulty UseSqlite [sample_row]
                   [None; None; None; None;
                    Some (Database "database is locked")])
           (Database "database is locked"));
    reflexivity.
Defined.

(* ===================================================================== *)
(** * The text of created on SQLite *)
(* ===================================================================== *)

Lemma replace_space_T_facts s :
  String.length (replace_space_T s) = String.length s
  /\ has_space (replace_space_T s) = false.
Proof.
  induction s as [|c s [IH1 IH2]]; simpl; [auto|].
  rewrite IH1, IH2. split; [reflexivity|].
  destruct (Ascii.eqb c " ") eqn:E; [reflexivity|].
  rewrite E. reflexivity.
Qed.

(** X24: for a group whose earliest [created_at] is not empty, the
    SQLite branch of the listing returns as [created] a text made of a
    body of the same length with no space left in it, followed by [Z]. *)
Theorem sqlite_created_has_no_space :
  forall g,
    g_created g <> "" ->
    exists body,
      created (listed SQLite g) = PStr (body ++ "Z")
      /\ String.length body = String.length (g_created g)
      /\ has_space body = false.
Proof.
  intros g Hg. exists (replace_space_T (g_created g)).
  split; [|apply replace_space_T_facts].
  unfold listed, format_created, fetch_item.
  cbn [created fetch_created truthy].
  apply String.eqb_neq in Hg. rewrite Hg. reflexivity.
Qed.

Lemma sqlite_created_has_no_space_witness :
  exists body,
    created (listed SQLite (mkGroup (PStr "s1") 1 "2024-01-01 12:30:00"))
    = PStr (body ++ "Z")
    /\ String.length body = String.length "2024-01-01 12:30:00"
    /\ has_space body = false.
Proof.
  apply (sqlite_created_has_no_space
           (mkGroup (PStr "s1") 1 "2024-01-01 12:30:00")).
  discriminate.
Defined.

(* ===================================================================== *)
(** * Connections on every ending *)
(* ===================================================================== *)



Lemma quiet_same_counters w w' : quiet_step w w' -> same_counters w w'.
Proof. intros (_ & _ & ? & ?). split; assumption. Qed.




Lemma insert_records_counts c n data :
  post same_counters any (insert_records c n data).
Proof.
  intros w w' r H. split; [|intros; exact I].
  apply quiet_same_counters. eapply insert_records_quiet. exact H.
Qed.























